(** * Loan Management API (app.js): authorization and response shaping

    A shallow embedding of the Express application of [app.js] and the
    properties of its authentication gate, role gate, response shaper and
    request handlers.

    JavaScript objects live in a heap of cells addressed by locations, so
    that copying ([{ ...loan }]) and sharing (the [applicant] sub-object
    reached from two records) are told apart.  Handlers are computations
    in a state-and-exception monad over that heap.

    The middlewares that app.js installs from packages (body and cookie
    parsing, logging, CORS, rate limiting) act before the routes and are
    represented by their results in the request record.  The heap holds
    the data objects only: object literals passed straight to [res.json]
    or [jwt.sign], [Date] objects and closures are not allocated in it. *)

From Stdlib Require Import ZArith Ascii String.
From stdpp Require Import gmap strings list fin_maps pretty.

Local Open Scope string_scope.

(** ** Values and heap cells *)

Abbreviation loc := positive.

(** JavaScript values.  Numbers occur only as JSON literals that the
    handlers compare and test for truthiness; they are carried as
    integers.  Objects and arrays are references into the heap. *)
Inductive val :=
| VUndef
| VNull
| VBool (b : bool)
| VNum (n : Z)
| VStr (s : string)
| VRef (l : loc).

#[global] Instance val_eq_dec : EqDecision val.
Proof. solve_decision. Defined.

#[global] Instance val_inhabited : Inhabited val := populate VUndef.

(** A heap cell holds the own enumerable properties of a plain object, or
    the elements of an array. *)
Inductive cell :=
| Obj (props : gmap string val)
| Arr (elems : list val).

#[global] Instance cell_eq_dec : EqDecision cell.
Proof. solve_decision. Defined.

Abbreviation heap := (gmap positive cell).

(** ** Errors and completions *)

(** An [Error] instance, reduced to the three properties that app.js
    reads or writes. *)
Record error := MkError {
  name : string;
  message : string;
  statusCode : option Z
}.

#[global] Instance error_eq_dec : EqDecision error.
Proof. solve_decision. Defined.

(** [new Error(msg)] followed by [error.statusCode = code]. *)
Definition new_Error (msg : string) (code : Z) : error :=
  {| name := "Error"; message := msg; statusCode := Some code |}.

(** A [TypeError] raised by the runtime; the wording is the engine's. *)
Definition TypeError (msg : string) : error :=
  {| name := "TypeError"; message := msg; statusCode := None |}.

Inductive completion (A : Type) :=
| Normal (a : A)
| Throw (e : error).
Arguments Normal {A} a.
Arguments Throw {A} e.

(** The monad of handler code: a heap is threaded through, an exception
    aborts the rest of the block but keeps the heap reached so far. *)
Definition js (A : Type) : Type := heap → completion A * heap.

Definition ret {A} (a : A) : js A := λ h, (Normal a, h).

Definition throw {A} (e : error) : js A := λ h, (Throw e, h).

Definition bind {A B} (m : js A) (k : A → js B) : js B :=
  λ h, match m h with
       | (Normal a, h') => k a h'
       | (Throw e, h') => (Throw e, h')
       end.

(** [try { m } catch (error) { handler error }] *)
Definition try_catch {A} (m : js A) (handler : error → js A) : js A :=
  λ h, match m h with
       | (Normal a, h') => (Normal a, h')
       | (Throw e, h') => handler e h'
       end.

Notation "'let!' x ':=' m 'in' k" := (bind m (λ x, k))
  (at level 10, x name, m at level 100, k at level 200).
Notation "'do!' m 'in' k" := (bind m (λ _, k))
  (at level 10, m at level 100, k at level 200).

(** ** Primitive operations of the language *)

(** [!!v]: the falsy values are [undefined], [null], [false], [0], [""]. *)
Definition truthy (v : val) : bool :=
  match v with
  | VUndef | VNull => false
  | VBool b => b
  | VNum n => negb (n =? 0)%Z
  | VStr s => negb (String.eqb s "")
  | VRef _ => true
  end.

(** [a === b]: primitives by value, objects by identity. *)
Definition strict_eq (a b : val) : bool := bool_decide (a = b).

(** [a || b] on values. *)
Definition or_else (a b : val) : val := if truthy a then a else b.

(** The characters of a string, as one-character strings. *)
Fixpoint chars (s : string) : list val :=
  match s with
  | EmptyString => []
  | String c s' => VStr (String c EmptyString) :: chars s'
  end.

(** The index-keyed properties ["0"], ["1"], ... of an array or string. *)
Definition index_props (xs : list val) : gmap string val :=
  list_to_map (imap (λ i x, (pretty i, x)) xs).

(** The own enumerable properties of a value: what [{ ...v }] copies. *)
Definition ownProps (h : heap) (v : val) : gmap string val :=
  match v with
  | VRef l =>
      match h !! l with
      | Some (Obj o) => o
      | Some (Arr xs) => index_props xs
      | None => ∅
      end
  | VStr s => index_props (chars s)
  | _ => ∅
  end.

Definition alloc (c : cell) : js val :=
  λ h, let l := fresh (dom h) in (Normal (VRef l), <[l := c]> h).

(** [{ ...v }] *)
Definition spread (v : val) : js val :=
  λ h, alloc (Obj (ownProps h v)) h.

Definition show_nullish (v : val) : string :=
  match v with VNull => "null" | _ => "undefined" end.

Definition cannot_read (v : val) (k : string) : error :=
  TypeError ("Cannot read properties of " ++ show_nullish v
             ++ " (reading '" ++ k ++ "')").

Definition cannot_set (v : val) (k : string) : error :=
  TypeError ("Cannot set properties of " ++ show_nullish v
             ++ " (setting '" ++ k ++ "')").

Definition cannot_convert : error :=
  TypeError "Cannot convert undefined or null to object".

(** Property read on a cell.  Inherited properties are left out: none of
    the keys read by app.js ([applicant], [email], [status], [id], ...)
    is defined on [Object.prototype], [Array.prototype] or
    [String.prototype]. *)
Definition cell_get (c : cell) (k : string) : val :=
  match c with
  | Obj o => default VUndef (o !! k)
  | Arr xs =>
      if String.eqb k "length" then VNum (Z.of_nat (length xs))
      else default VUndef (index_props xs !! k)
  end.

(** [v.k] (equally [v[k]]): reading a property of [undefined] or [null]
    throws, a missing property reads as [undefined]. *)
Definition getProp (v : val) (k : string) : js val :=
  λ h, match v with
       | VUndef | VNull => (Throw (cannot_read v k), h)
       | VRef l =>
           match h !! l with
           | Some c => (Normal (cell_get c k), h)
           | None => (Normal VUndef, h)
           end
       | VStr s =>
           if String.eqb k "length"
           then (Normal (VNum (Z.of_nat (String.length s))), h)
           else (Normal (default VUndef (index_props (chars s) !! k)), h)
       | VBool _ | VNum _ => (Normal VUndef, h)
       end.

(** [target.k = v].  In app.js the target is always the plain object that
    the enclosing block has just created; assignment to a primitive is
    silently dropped (the file is sloppy-mode code), an array cell is left
    alone since it has no named properties in this model. *)
Definition setProp (target : val) (k : string) (v : val) : js unit :=
  λ h, match target with
       | VUndef | VNull => (Throw (cannot_set target k), h)
       | VRef l =>
           match h !! l with
           | Some (Obj o) => (Normal (), <[l := Obj (<[k := v]> o)]> h)
           | _ => (Normal (), h)
           end
       | _ => (Normal (), h)
       end.

(** [delete target.k] *)
Definition deleteProp (target : val) (k : string) : js unit :=
  λ h, match target with
       | VUndef | VNull => (Throw cannot_convert, h)
       | VRef l =>
           match h !! l with
           | Some (Obj o) => (Normal (), <[l := Obj (delete k o)]> h)
           | _ => (Normal (), h)
           end
       | _ => (Normal (), h)
       end.

Fixpoint has_dot (s : string) : bool :=
  match s with
  | EmptyString => false
  | String c s' => Ascii.eqb c "."%char || has_dot s'
  end.

(** The property named by a member expression: what follows its last
    dot (['filter'] for ['loansData.filter']). *)
Fixpoint property_of (what : string) : string :=
  match what with
  | EmptyString => EmptyString
  | String c s' => if has_dot what then property_of s' else what
  end.

(** The elements visited by an array method called on [v]; [what] is the
    source text of the call, for the runtime's message: on [undefined]
    or [null] the method cannot be read, on any other value that is not
    an array it is not a function. *)
Definition elements_of (what : string) (v : val) : js (list val) :=
  λ h, match v with
       | VUndef | VNull => (Throw (cannot_read v (property_of what)), h)
       | VRef l =>
           match h !! l with
           | Some (Arr xs) => (Normal xs, h)
           | _ => (Throw (TypeError (what ++ " is not a function")), h)
           end
       | _ => (Throw (TypeError (what ++ " is not a function")), h)
       end.

(** The elements produced by the spread [[...v]]. *)
Definition iterate (what : string) (v : val) : js (list val) :=
  λ h, match v with
       | VRef l =>
           match h !! l with
           | Some (Arr xs) => (Normal xs, h)
           | _ => (Throw (TypeError (what ++ " is not iterable")), h)
           end
       | VStr s => (Normal (chars s), h)
       | _ => (Throw (TypeError (what ++ " is not iterable")), h)
       end.

Fixpoint mapM {A B} (f : A → js B) (xs : list A) : js (list B) :=
  match xs with
  | [] => ret []
  | x :: xs' => let! y := f x in let! ys := mapM f xs' in ret (y :: ys)
  end.

Fixpoint filterM {A} (p : A → js bool) (xs : list A) : js (list A) :=
  match xs with
  | [] => ret []
  | x :: xs' =>
      let! keep := p x in
      let! ys := filterM p xs' in
      ret (if keep then x :: ys else ys)
  end.

(** Short-circuiting search used by [some] and [find]. *)
Fixpoint findM {A} (p : A → js bool) (xs : list A) : js (option A) :=
  match xs with
  | [] => ret None
  | x :: xs' =>
      let! hit := p x in
      if hit then ret (Some x) else findM p xs'
  end.

(** [arr.map(f)], [arr.filter(p)], [arr.some(p)], [arr.find(p)]: each
    visits the elements in order; [map] and [filter] return a new array. *)
Definition array_map (what : string) (f : val → js val) (arr : val) : js val :=
  let! xs := elements_of what arr in
  let! ys := mapM f xs in
  alloc (Arr ys).

Definition array_filter (what : string) (p : val → js bool) (arr : val)
  : js val :=
  let! xs := elements_of what arr in
  let! ys := filterM p xs in
  alloc (Arr ys).

Definition array_some (what : string) (p : val → js bool) (arr : val)
  : js bool :=
  let! xs := elements_of what arr in
  let! r := findM p xs in
  ret (bool_decide (is_Some r)).

Definition array_find (what : string) (p : val → js bool) (arr : val)
  : js val :=
  let! xs := elements_of what arr in
  let! r := findM p xs in
  ret (default VUndef r).

(** [arr.length] of an array value, as used for the [results] field. *)
Definition array_length (arr : val) : js val := getProp arr "length".

(** [s.split(' ')] *)
Fixpoint split_space (s : string) : list string :=
  match s with
  | EmptyString => [EmptyString]
  | String c s' =>
      if Ascii.eqb c " "%char then EmptyString :: split_space s'
      else match split_space s' with
           | piece :: rest => String c piece :: rest
           | [] => [String c EmptyString]
           end
  end.

(** ** Requests and responses *)

(** The part of an Express request that the handlers read.  [cookies] is
    filled by cookie-parser, [body] by [express.json()] ([None] when no
    JSON body was parsed), [user] by the authentication middleware. *)
Record request := MkRequest {
  cookies : gmap string val;
  authorization : option string;
  query : gmap string val;
  params : gmap string string;
  body : option (gmap string val);
  originalUrl : string;
  user : option (gmap string val)
}.

Definition set_user (req : request) (decoded : gmap string val) : request :=
  {| cookies := cookies req; authorization := authorization req;
     query := query req; params := params req; body := body req;
     originalUrl := originalUrl req; user := Some decoded |}.

(** The object literal handed to [res.json]. *)
Inductive payload :=
| ErrorJson (code : Z) (msg : string)
    (* { status: 'error', statusCode, message } *)
| RouteNotFoundJson (msg : string)
    (* { status: 'error', message } *)
| SuccessJson (msg : string)
    (* { status: 'success', message } *)
| LoansJson (results : val) (loans : val)
    (* { status: 'success', results, data: { loans } } *)
| LoginJson (msg : string) (usr : gmap string val) (token : string).
    (* { status: 'success', message, data: { user, token } } *)

Inductive cookie_op :=
| SetCookie (key value : string) (httpOnly : bool) (maxAge : Z)
| ClearCookie (key : string).

Record response := MkResponse {
  status : Z;
  json : payload;
  cookie : option cookie_op
}.

(** What a middleware or handler does with the request: call [next()],
    call [next(error)], or send the response. *)
Inductive step :=
| Next (req : request)
| NextError (e : error)
| Responded (res : response).

(** The outcome of [jwt.verify(token, JWT_SECRET)]: the decoded claims, or
    the error it throws. *)
Inductive verify_result :=
| Verified (decoded : gmap string val)
| Rejected (e : error).

(** The errors of the jsonwebtoken package.  A bad signature or a
    malformed token throws a [JsonWebTokenError]; an expired token throws
    a [TokenExpiredError], whose [name] is its own. *)
Definition JsonWebTokenError (msg : string) : error :=
  {| name := "JsonWebTokenError"; message := msg; statusCode := None |}.

Definition TokenExpiredError : error :=
  {| name := "TokenExpiredError"; message := "jwt expired";
     statusCode := None |}.

(** Global error handler middleware. *)
Definition errorHandler (err : error) : response :=
  let statusCode' :=
    match statusCode err with
    | Some c => if (c =? 0)%Z then 500%Z else c
    | None => 500%Z
    end in
  let message' :=
    if String.eqb (message err) "" then "Internal Server Error"
    else message err in
  {| status := statusCode';
     json := ErrorJson statusCode' message';
     cookie := None |}.

(** 404 route handler, reached when no route answered. *)
Definition route_not_found (req : request) : response :=
  {| status := 404;
     json := RouteNotFoundJson ("Route " ++ originalUrl req ++ " not found");
     cookie := None |}.

(** A route: its middlewares run in order; [next()] moves on,
    [next(error)] and an uncaught exception go to [errorHandler]. *)
Fixpoint run (chain : list (request → js step)) (req : request)
  : js response :=
  match chain with
  | [] => ret (route_not_found req)
  | m :: rest =>
      let! s := try_catch (m req) (λ e, ret (NextError e)) in
      match s with
      | Next req' => run rest req'
      | NextError e => ret (errorHandler e)
      | Responded res => ret res
      end
  end.

(** ** Reading the heap in statements *)

(** The properties of the plain object that [v] refers to. *)
Definition fields (h : heap) (v : val) : option (gmap string val) :=
  match v with
  | VRef l => match h !! l with Some (Obj o) => Some o | _ => None end
  | _ => None
  end.

(** The elements of the array that [v] refers to. *)
Definition elems_of (h : heap) (v : val) : option (list val) :=
  match v with
  | VRef l => match h !! l with Some (Arr xs) => Some xs | _ => None end
  | _ => None
  end.

(** [v.k], for a [v] that is not [undefined] or [null]. *)
Definition read (h : heap) (v : val) (k : string) : val :=
  match getProp v k h with
  | (Normal x, _) => x
  | (Throw _, _) => VUndef
  end.

(** The properties of [v.applicant], when [v] and its applicant are
    plain objects. *)
Definition applicant_of (h : heap) (v : val) : option (gmap string val) :=
  match fields h v with
  | Some o => match o !! "applicant" with
              | Some a => fields h a
              | None => None
              end
  | None => None
  end.

(** A loan or staff record: a reference to a plain object. *)
Definition is_record (h : heap) (v : val) : bool :=
  bool_decide (is_Some (fields h v)).

(** [store] holds an array of records. *)
Definition record_store (h : heap) (store : val) (xs : list val) : Prop :=
  elems_of h store = Some xs ∧ forallb (is_record h) xs = true.

(** Objects reachable from a value by following property and element
    references. *)
Inductive reachable (h : heap) : val → loc → Prop :=
| reach_here l : reachable h (VRef l) l
| reach_prop l o k v l' :
    h !! l = Some (Obj o) → o !! k = Some v → reachable h v l' →
    reachable h (VRef l) l'
| reach_elem l xs v l' :
    h !! l = Some (Arr xs) → v ∈ xs → reachable h v l' →
    reachable h (VRef l) l'.

(** Shape of the result for a role other than ['staff']: every element
    of the new array is a new object with the properties of the
    corresponding loan. *)
Definition copy_of (h0 h' : heap) (x y : val) : Prop :=
  ∃ l, y = VRef l ∧ (l ∉ dom h0) ∧ h' !! l = Some (Obj (ownProps h0 x)).

(** Shape of the result for ['staff']: a new object whose [applicant] is
    a new object without [totalLoan]. *)
Definition redacted_copy_of (h0 h' : heap) (x y : val) : Prop :=
  ∃ l l2 o a,
    y = VRef l ∧ (l ∉ dom h0) ∧ (l2 ∉ dom h0) ∧ fields h0 x = Some o
    ∧ h' !! l = Some (Obj (<["applicant" := VRef l2]> o))
    ∧ h' !! l2 = Some (Obj (delete "totalLoan" a))
    ∧ (∀ a0, applicant_of h0 x = Some a0 → a = a0).

(** What a ['staff'] identity sees of the loan [x] in the returned [y]:
    every property but [applicant] as stored, and an applicant without
    the [totalLoan] key. *)
Definition hides_totalLoan (h h' : heap) (x y : val) : Prop :=
  ∃ o o' a,
    fields h x = Some o ∧ fields h' y = Some o'
    ∧ (∀ k, k ≠ "applicant" → o' !! k = o !! k)
    ∧ applicant_of h' y = Some a ∧ a !! "totalLoan" = None
    ∧ (∀ a0, applicant_of h x = Some a0 → a = delete "totalLoan" a0).

(** What the other roles see: the properties of the loan and of its
    applicant as stored. *)
Definition shows_everything (h h' : heap) (x y : val) : Prop :=
  ∃ o,
    fields h x = Some o ∧ fields h' y = Some o
    ∧ (∀ a, applicant_of h x = Some a → applicant_of h' y = Some a).

(** A returned record that is a new object with the stored property
    values, the [applicant] reference among them. *)
Definition shallow_copy (h h' : heap) (x y : val) : Prop :=
  ∃ l o,
    y = VRef l ∧ (l ∉ dom h) ∧ fields h x = Some o ∧ h' !! l = Some (Obj o)
    ∧ read h' y "applicant" = read h x "applicant".

(** The shape of a returned record, by role. *)
Definition shaped (role : val) (h0 h' : heap) (x y : val) : Prop :=
  if bool_decide (role = VStr "staff") then redacted_copy_of h0 h' x y
  else copy_of h0 h' x y.

(** The successful response of the three read routes. *)
Definition loans_ok (ys : list val) (out : val) : response :=
  {| status := 200;
     json := LoansJson (VNum (Z.of_nat (length ys))) out;
     cookie := None |}.

(** Lowercasing of the ASCII letters [A]-[Z]; every other character is
    left as it is.  Used to say what the runtime's [toLowerCase] does on
    a string of ASCII characters. *)
Definition ascii_lower_char (c : ascii) : ascii :=
  let n := nat_of_ascii c in
  if (65 <=? n)%nat && (n <=? 90)%nat then ascii_of_nat (n + 32) else c.

Fixpoint ascii_lower (s : string) : string :=
  match s with
  | EmptyString => EmptyString
  | String c s' => String (ascii_lower_char c) (ascii_lower s')
  end.




(** A computation that leaves the heap as it found it, whatever it
    returns or throws. *)
Definition reads_only {A} (m : js A) : Prop :=
  ∀ h : gmap positive cell, snd (m h) = h.

(** A computation that may allocate but leaves every object that was in
    the heap as it was, whatever it returns or throws. *)
Definition preserves_heap {A} (m : js A) : Prop :=
  ∀ h : gmap positive cell, h ⊆ snd (m h).

(** The claims that login signs for the staff record [s], which are
    also the [user] object of its response. *)
Definition staff_claims (h : heap) (s : val) : gmap string val :=
  <["id" := read h s "id"]>
    (<["name" := read h s "name"]>
       (<["email" := read h s "email"]>
          (<["role" := read h s "role"]> ∅))).

(** The response of a successful login that issued [token]. *)
Definition login_ok (usr : gmap string val) (token : string) : response :=
  {| status := 200;
     json := LoginJson "Login successful" usr token;
     cookie := Some (SetCookie "token" token true 3600000) |}.

(** A string without a space character. *)
Fixpoint no_space (s : string) : bool :=
  match s with
  | EmptyString => true
  | String c s' => negb (Ascii.eqb c " "%char) && no_space s'
  end.

(** ** A sample store and sample requests *)

Module Sample.

Definition applicant1 : gmap string val :=
  <["name" := VStr "Michael Brown"]>
    (<["email" := VStr "MichaelBrown@example.com"]>
       (<["totalLoan" := VNum 5000]> ∅)).

Definition loan1 : gmap string val :=
  <["id" := VStr "900199"]>
    (<["status" := VStr "active"]>
       (<["maturityDate" := VStr "2024-03-05"]>
          (<["applicant" := VRef 1]> ∅))).

Definition applicant2 : gmap string val :=
  <["name" := VStr "Jane Doe"]>
    (<["email" := VStr "janedoe@example.com"]>
       (<["totalLoan" := VNum 120]> ∅)).

Definition loan2 : gmap string val :=
  <["id" := VStr "900200"]>
    (<["status" := VStr "pending"]>
       (<["maturityDate" := VStr "2030-01-01"]>
          (<["applicant" := VRef 3]> ∅))).

Definition staff1 : gmap string val :=
  <["id" := VNum 1]>
    (<["name" := VStr "Edwin John"]>
       (<["email" := VStr "edwinjohn@example.com"]>
          (<["password" := VStr "12345Pass"]>
             (<["role" := VStr "superAdmin"]> ∅)))).

Definition staff2 : gmap string val :=
  <["id" := VNum 2]>
    (<["name" := VStr "Jane Smith"]>
       (<["email" := VStr "janesmith@example.com"]>
          (<["password" := VStr "password456"]>
             (<["role" := VStr "staff"]> ∅)))).

(** The heap after the two data files have been loaded. *)
Definition store : gmap positive cell :=
  <[1%positive := Obj applicant1]>
    (<[2%positive := Obj loan1]>
       (<[3%positive := Obj applicant2]>
          (<[4%positive := Obj loan2]>
             (<[5%positive := Arr [VRef 2; VRef 4]]>
                (<[6%positive := Obj staff1]>
                   (<[7%positive := Obj staff2]>
                      (<[8%positive := Arr [VRef 6; VRef 7]]> ∅))))))).

Definition loansData : val := VRef 5.
Definition staffsData : val := VRef 8.

Definition claims (role : string) : gmap string val :=
  <["role" := VStr role]> ∅.

(** A verifier that knows three good tokens and one expired token, and
    finds every other token malformed. *)
Definition jwt_verify (token : val) : verify_result :=
  match token with
  | VStr "staff-token" => Verified (claims "staff")
  | VStr "admin-token" => Verified (claims "admin")
  | VStr "super-token" => Verified (claims "superAdmin")
  | VStr "expired-token" => Rejected TokenExpiredError
  | VStr _ => Rejected (JsonWebTokenError "jwt malformed")
  | _ => Rejected (JsonWebTokenError "jwt must be a string")
  end.

Definition jwt_sign (h : gmap positive cell) (payload : gmap string val)
  : string := "signed-token".

(** Lowercasing on the sample data, whose strings are ASCII. *)
Definition toLowerCase : string → string := ascii_lower.

(** Time values of the two maturity dates, in milliseconds. *)
Definition Date_value (h : gmap positive cell) (v : val) : option Z :=
  match v with
  | VStr "2024-03-05" => Some 1709596800000%Z
  | VStr "2030-01-01" => Some 1893456000000%Z
  | _ => None
  end.

(** A request with the given cookie, header and parameters. *)
Definition request_with (cookie' : option val) (header : option string)
    (status' : option val) (params' : gmap string string)
    (body' : option (gmap string val)) : request :=
  {| cookies := match cookie' with
                | Some c => <["token" := c]> ∅
                | None => ∅
                end;
     authorization := header;
     query := match status' with
              | Some s => <["status" := s]> ∅
              | None => ∅
              end;
     params := params';
     body := body';
     originalUrl := "/api";
     user := None |}.

Definition bearer (token : string) : request :=
  request_with None (Some ("Bearer " ++ token)) None ∅ None.

Definition delete_request (token loanId : string) : request :=
  request_with None (Some ("Bearer " ++ token)) None
    (<["loanId" := loanId]> ∅) None.

Definition user_loans_request (token userEmail : string) : request :=
  request_with None (Some ("Bearer " ++ token)) None
    (<["userEmail" := userEmail]> ∅) None.

Definition login_request (email password : val) : request :=
  request_with None None None ∅
    (Some (<["email" := email]> (<["password" := password]> ∅))).

End Sample.

(** A signer and a verifier that agree on one session token, issued
    for the second staff record of the sample store; the verifier returns
    the signed claims together with the [iat] and [exp] that signing with
    [expiresIn] adds. *)
Module Session.

Definition jwt_sign (h : gmap positive cell) (payload : gmap string val)
  : string := "session-token".

Definition jwt_verify (token : val) : verify_result :=
  match token with
  | VStr "session-token" =>
      Verified (<["iat" := VNum 1762142400]>
                  (<["exp" := VNum 1762146000]>
                     (staff_claims Sample.store (VRef 7))))
  | _ => Rejected (JsonWebTokenError "jwt malformed")
  end.

End Session.

(** Stores with records that the handlers do not expect. *)
Module Edge.

(** One loan whose [id] is a number. *)
Definition numeric_ids : gmap positive cell :=
  <[1%positive := Obj (<["id" := VNum 900199]>
                         (<["status" := VStr "active"]> ∅))]>
    (<[2%positive := Arr [VRef 1]]> ∅).

Definition numeric_loansData : val := VRef 2.

(** The sample store with a loan that has no [applicant] between the
    two sample loans. *)
Definition no_applicant : gmap positive cell :=
  <[9%positive := Obj (<["id" := VStr "900201"]>
                         (<["status" := VStr "active"]> ∅))]>
    (<[10%positive := Arr [VRef 2; VRef 9; VRef 4]]> Sample.store).

Definition no_applicant_loansData : val := VRef 10.

(** The sample store with a [null] between the two sample loans. *)
Definition with_null : gmap positive cell :=
  <[9%positive := Arr [VRef 2; VNull; VRef 4]]> Sample.store.

Definition with_null_loansData : val := VRef 9.

End Edge.

(** ** The application *)

Section App.

Set Default Proof Using "Type".

(** The runtime and the two data files, which app.js takes from outside:
    - [jwt_verify token] is [jwt.verify(token, JWT_SECRET)] at the time of
      the request, [jwt_sign h payload] is
      [jwt.sign(payload, JWT_SECRET, { expiresIn: '1h' })];
    - [Date_value h v] is the time value of [new Date(v)], in
      milliseconds, [None] for an invalid date;
    - [toLowerCase s] is [s.toLowerCase()], the lowercasing of the
      runtime, over all of Unicode;
    - [staffsData] and [loansData] are the values loaded from
      [data/staffs.json] and [data/loans.json]. *)
Variable jwt_verify : val → verify_result.
Variable jwt_sign : heap → gmap string val → string.
Variable Date_value : heap → val → option Z.
Variable toLowerCase : string → string.
Variables staffsData loansData : val.

(** [a < b] on two [Date] objects: false when either is invalid. *)
Definition date_lt (a b : option Z) : bool :=
  match a, b with
  | Some x, Some y => (x <? y)%Z
  | _, _ => false
  end.

(** [req.cookies.token] *)
Definition cookie_token (req : request) : val :=
  default VUndef (cookies req !! "token").

(** [req.headers.authorization?.split(' ')[1]] *)
Definition bearer_token (req : request) : val :=
  match authorization req with
  | Some header => default VUndef (VStr <$> split_space header !! 1%nat)
  | None => VUndef
  end.

(** Authentication middleware. *)
Definition authMiddleware (req : request) : js step :=
  try_catch
    (let token := or_else (cookie_token req) (bearer_token req) in
     if negb (truthy token) then
       throw (new_Error "Unauthorized - No token provided" 401)
     else
       match jwt_verify token with
       | Verified decoded => ret (Next (set_user req decoded))
       | Rejected e => throw e
       end)
    (λ error,
       if String.eqb (name error) "JsonWebTokenError" then
         ret (NextError {| name := name error;
                           message := "Unauthorized - Invalid token";
                           statusCode := Some 401%Z |})
       else ret (NextError error)).

(** [req.user.role] *)
Definition user_role (req : request) : js val :=
  match user req with
  | Some u => ret (default VUndef (u !! "role"))
  | None => throw (cannot_read VUndef "role")
  end.

(** Role-based authorization middleware. *)
Definition authorizeRoles (roles : list val) (req : request) : js step :=
  let! role := user_role req in
  if negb (bool_decide (role ∈ roles)) then
    ret (NextError (new_Error "Forbidden - Insufficient permissions" 403))
  else ret (Next req).

(** The body of the [map] callback of [processLoansByRole]. *)
Definition processLoan (userRole : val) (loan : val) : js val :=
  let! processedLoan := spread loan in
  if strict_eq userRole (VStr "staff") then
    let! applicant := getProp loan "applicant" in
    let! copy := spread applicant in
    do! setProp processedLoan "applicant" copy in
    let! target := getProp processedLoan "applicant" in
    do! deleteProp target "totalLoan" in
    ret processedLoan
  else ret processedLoan.

(** Process loans based on user role. *)
Definition processLoansByRole (loans : val) (userRole : val) : js val :=
  array_map "loans.map" (processLoan userRole) loans.

Definition loans_response (processedLoans : val) : js step :=
  let! results := array_length processedLoans in
  ret (Responded {| status := 200;
                    json := LoansJson results processedLoans;
                    cookie := None |}).

(** [app.post('/api/login', ...)] *)
Definition login_handler (req : request) : js step :=
  try_catch
    (match body req with
     | None =>
         throw (TypeError
           "Cannot destructure property 'email' of 'req.body' as it is undefined.")
     | Some b =>
         let email := default VUndef (b !! "email") in
         let password := default VUndef (b !! "password") in
         if negb (truthy email) || negb (truthy password) then
           throw (new_Error "Email and password are required" 400)
         else
           let! staff :=
             array_find "staffsData.find"
               (λ s, let! e := getProp s "email" in ret (strict_eq e email))
               staffsData in
           if negb (truthy staff) then
             throw (new_Error "Invalid credentials" 401)
           else
             let! stored := getProp staff "password" in
             let isPasswordValid := strict_eq password stored in
             if negb isPasswordValid then
               throw (new_Error "Invalid credentials" 401)
             else
               let! id := getProp staff "id" in
               let! nm := getProp staff "name" in
               let! em := getProp staff "email" in
               let! role := getProp staff "role" in
               let claims : gmap string val :=
                 <["id" := id]> (<["name" := nm]>
                   (<["email" := em]> (<["role" := role]> ∅))) in
               λ h,
                 let token := jwt_sign h claims in
                 (Normal (Responded
                    {| status := 200;
                       json := LoginJson "Login successful" claims token;
                       cookie := Some (SetCookie "token" token true 3600000)
                    |}), h)
     end)
    (λ error, ret (NextError error)).

(** [app.post('/api/logout', ...)] *)
Definition logout_handler (req : request) : js step :=
  ret (Responded {| status := 200;
                    json := SuccessJson "Logout successful";
                    cookie := Some (ClearCookie "token") |}).

(** [app.get('/api/loans', authMiddleware, ...)]: all loans, with the
    optional status filter. *)
Definition loans_handler (req : request) : js step :=
  try_catch
    (let status' := default VUndef (query req !! "status") in
     let! copied := iterate "loansData" loansData in
     let! filteredLoans := alloc (Arr copied) in
     let! filteredLoans :=
       if truthy status' then
         array_filter "filteredLoans.filter"
           (λ loan, let! s := getProp loan "status" in
                    ret (strict_eq s status'))
           filteredLoans
       else ret filteredLoans in
     let! role := user_role req in
     let! processedLoans := processLoansByRole filteredLoans role in
     loans_response processedLoans)
    (λ error, ret (NextError error)).

(** The [filter] callback of the expired-loans route; [currentDate] is
    the time value of [new Date()]. *)
Definition is_expired (currentDate : Z) (loan : val) : js bool :=
  let! m := getProp loan "maturityDate" in
  λ h, let maturityDate := Date_value h m in
       (Normal (date_lt maturityDate (Some currentDate)), h).

(** [app.get('/api/expired-loans', authMiddleware, ...)], run at the
    instant [now]. *)
Definition expired_loans_handler (now : Z) (req : request) : js step :=
  try_catch
    (let currentDate := now in
     let! expiredLoans :=
       array_filter "loansData.filter" (is_expired currentDate) loansData in
     let! role := user_role req in
     let! processedLoans := processLoansByRole expiredLoans role in
     loans_response processedLoans)
    (λ error, ret (NextError error)).

(** [v.toLowerCase()], where [what] is the source text of [v]. *)
Definition call_toLowerCase (what : string) (v : val) : js val :=
  match v with
  | VStr s => ret (VStr (toLowerCase s))
  | VUndef | VNull => throw (cannot_read v "toLowerCase")
  | _ => throw (TypeError (what ++ ".toLowerCase is not a function"))
  end.

(** The [filter] callback of the user-loans route. *)
Definition email_matches (userEmail : val) (loan : val) : js bool :=
  let! applicant := getProp loan "applicant" in
  let! email := getProp applicant "email" in
  let! lhs := call_toLowerCase "loan.applicant.email" email in
  let! rhs := call_toLowerCase "userEmail" userEmail in
  ret (strict_eq lhs rhs).

Definition param (req : request) (k : string) : val :=
  match params req !! k with Some s => VStr s | None => VUndef end.

(** [app.get('/api/user-loans/:userEmail', authMiddleware, ...)] *)
Definition user_loans_handler (req : request) : js step :=
  try_catch
    (let userEmail := param req "userEmail" in
     let! userLoans :=
       array_filter "loansData.filter" (email_matches userEmail) loansData in
     let! role := user_role req in
     let! processedLoans := processLoansByRole userLoans role in
     loans_response processedLoans)
    (λ error, ret (NextError error)).

(** The text a template literal gives for a route parameter. *)
Definition interpolate (v : val) : string :=
  match v with VStr s => s | _ => "undefined" end.

(** [app.delete('/api/loans/:loanId', authMiddleware,
    authorizeRoles('superAdmin'), ...)] *)
Definition delete_loan_handler (req : request) : js step :=
  try_catch
    (let loanId := param req "loanId" in
     let! loanExists :=
       array_some "loansData.some"
         (λ loan, let! id := getProp loan "id" in ret (strict_eq id loanId))
         loansData in
     if negb loanExists then throw (new_Error "Loan not found" 404)
     else
       ret (Responded
              {| status := 200;
                 json := SuccessJson
                   ("Loan with ID " ++ interpolate loanId
                    ++ " has been deleted");
                 cookie := None |}))
    (λ error, ret (NextError error)).

(** The routes, as registered on the application. *)
Definition post_api_login : request → js response :=
  run [login_handler].

Definition post_api_logout : request → js response :=
  run [logout_handler].

Definition get_api_loans : request → js response :=
  run [authMiddleware; loans_handler].

Definition get_api_expired_loans (now : Z) : request → js response :=
  run [authMiddleware; expired_loans_handler now].

Definition get_api_user_loans : request → js response :=
  run [authMiddleware; user_loans_handler].

Definition delete_api_loans : request → js response :=
  run [authMiddleware; authorizeRoles [VStr "superAdmin"];
       delete_loan_handler].

(** The routes registered behind [authMiddleware]. *)
Definition protected_routes (now : Z) : list (request → js response) :=
  [get_api_loans; get_api_expired_loans now; get_api_user_loans;
   delete_api_loans].

(** The three routes that answer with loans. *)
Definition read_routes (now : Z) : list (request → js response) :=
  [get_api_loans; get_api_expired_loans now; get_api_user_loans].

(** The routes that answer without shaping any loan. *)
Definition plain_routes : list (request → js response) :=
  [post_api_login; post_api_logout; delete_api_loans].

(** [req] carries a token that verifies to the claims [decoded]. *)
Definition authenticated (req : request) (decoded : gmap string val) : Prop :=
  let token := or_else (cookie_token req) (bearer_token req) in
  truthy token = true ∧ jwt_verify token = Verified decoded.

(** What the gate passes on once [jwt.verify] has answered. *)
Definition gate_outcome (req : request) (r : verify_result) : step :=
  match r with
  | Verified decoded => Next (set_user req decoded)
  | Rejected e =>
      NextError
        (if String.eqb (name e) "JsonWebTokenError"
         then {| name := name e; message := "Unauthorized - Invalid token";
                 statusCode := Some 401%Z |}
         else e)
  end.

(** The error envelope sent with status [code]. *)
Definition error_response (code : Z) (msg : string) : response :=
  {| status := code; json := ErrorJson code msg; cookie := None |}.

(** The same request with no [status] query parameter. *)
Definition without_status (req : request) : request :=
  {| cookies := cookies req; authorization := authorization req;
     query := delete "status" (query req); params := params req;
     body := body req; originalUrl := originalUrl req; user := user req |}.

(** The loans that [GET /api/loans] selects for a query value. *)
Definition selected_by_status (h : heap) (status' : val) (xs : list val)
  : list val :=
  if truthy status'
  then List.filter (λ loan, strict_eq (read h loan "status") status') xs
  else xs.

(** The role bound to the request by the claims. *)
Definition role_of (decoded : gmap string val) : val :=
  default VUndef (decoded !! "role").

(** The email of the loan's applicant and the path parameter are equal
    once the runtime has lowercased both. *)
Definition email_equals_ci (h : heap) (userEmail : string) (loan : val)
  : bool :=
  match read h (read h loan "applicant") "email" with
  | VStr s => String.eqb (toLowerCase s) (toLowerCase userEmail)
  | _ => false
  end.


(** The [maturityDate] of a loan is strictly before [now]. *)
Definition matures_before (h : heap) (now : Z) (loan : val) : bool :=
  date_lt (Date_value h (read h loan "maturityDate")) (Some now).


(** ** Laws of the monad and of the primitive operations *)

Lemma bind_normal {A B} (m : js A) (k : A → js B) h a h' :
  m h = (Normal a, h') → bind m k h = k a h'.
Proof. intros E. unfold bind. by rewrite E. Qed.

Lemma bind_throw {A B} (m : js A) (k : A → js B) h e h' :
  m h = (Throw e, h') → bind m k h = (Throw e, h').
Proof. intros E. unfold bind. by rewrite E. Qed.

Lemma try_catch_normal {A} (m : js A) handler h a h' :
  m h = (Normal a, h') → try_catch m handler h = (Normal a, h').
Proof. intros E. unfold try_catch. by rewrite E. Qed.

Lemma try_catch_throw {A} (m : js A) handler h e h' :
  m h = (Throw e, h') → try_catch m handler h = handler e h'.
Proof. intros E. unfold try_catch. by rewrite E. Qed.

Lemma fresh_lookup (h : heap) : h !! fresh (dom h) = None.
Proof. apply not_elem_of_dom, is_fresh. Qed.

Lemma alloc_extends (h : heap) c : h ⊆ <[fresh (dom h) := c]> h.
Proof. apply insert_subseteq, fresh_lookup. Qed.

Lemma fields_mono h h' v o : h ⊆ h' → fields h v = Some o → fields h' v = Some o.
Proof.
  intros Hsub. destruct v as [| | | | |l]; simpl; try done.
  destruct (h !! l) as [c|] eqn:E; [|done].
  by rewrite (lookup_weaken _ _ _ _ E Hsub).
Qed.

Lemma elems_of_mono h h' v xs :
  h ⊆ h' → elems_of h v = Some xs → elems_of h' v = Some xs.
Proof.
  intros Hsub. destruct v as [| | | | |l]; simpl; try done.
  destruct (h !! l) as [c|] eqn:E; [|done].
  by rewrite (lookup_weaken _ _ _ _ E Hsub).
Qed.

Lemma applicant_of_mono h h' v a :
  h ⊆ h' → applicant_of h v = Some a → applicant_of h' v = Some a.
Proof.
  intros Hsub. unfold applicant_of.
  destruct (fields h v) as [o|] eqn:E; [|done].
  rewrite (fields_mono _ _ _ _ Hsub E).
  destruct (o !! "applicant") as [w|]; [|done].
  by apply fields_mono.
Qed.

Lemma is_record_fields h v :
  is_record h v = true → ∃ l o, v = VRef l ∧ h !! l = Some (Obj o).
Proof.
  unfold is_record. intros [o Ho]%bool_decide_eq_true.
  destruct v as [| | | | |l]; simpl in Ho; try done.
  destruct (h !! l) as [[o'|]|] eqn:E; try done. eauto.
Qed.

Lemma ownProps_fields h v o : fields h v = Some o → ownProps h v = o.
Proof.
  destruct v as [| | | | |l]; simpl; try done.
  by destruct (h !! l) as [[o'|]|]; intros; simplify_eq.
Qed.

(** Reads of a record see through heap extension. *)
Lemma getProp_record h v k o :
  fields h v = Some o → getProp v k h = (Normal (default VUndef (o !! k)), h).
Proof.
  destruct v as [| | | | |l]; simpl; try done.
  by destruct (h !! l) as [[o'|]|]; intros; simplify_eq.
Qed.

Lemma getProp_heap v k h r h' : getProp v k h = (r, h') → h' = h.
Proof.
  unfold getProp. intros E.
  destruct v as [| | | | |l]; simplify_eq; try done.
  - by destruct (String.eqb k "length"); simplify_eq.
  - by destruct (h !! l); simplify_eq.
Qed.

Lemma read_record h v k o :
  fields h v = Some o → read h v k = default VUndef (o !! k).
Proof. intros E. unfold read. by rewrite (getProp_record _ _ _ _ E). Qed.

Lemma forallb_Forall {A} (f : A → bool) (xs : list A) :
  forallb f xs = true → Forall (λ x, f x = true) xs.
Proof.
  induction xs as [|x xs IH]; simpl; [by constructor|].
  intros [Hx Hxs]%andb_true_iff. constructor; auto.
Qed.

(** ** The response shaper *)

(** For a role other than ['staff'], the callback allocates one object
    holding the properties of the loan and touches nothing else. *)
Lemma processLoan_other role loan (h : heap) :
  role ≠ VStr "staff" →
  processLoan role loan h
  = (Normal (VRef (fresh (dom h))),
     <[fresh (dom h) := Obj (ownProps h loan)]> h).
Proof.
  intros Hrole. unfold processLoan, spread, alloc, bind, strict_eq.
  by rewrite bool_decide_eq_false_2.
Qed.

(** For ['staff'] and a loan record, the callback allocates the copy of
    the record and a copy of its applicant, from which [totalLoan] is
    deleted. *)
Lemma processLoan_staff loan (h : heap) o :
  fields h loan = Some o →
  ∃ l l2 a h',
    processLoan (VStr "staff") loan h = (Normal (VRef l), h')
    ∧ h ⊆ h' ∧ (l ∉ dom h) ∧ (l2 ∉ dom h) ∧ l ≠ l2
    ∧ h' !! l = Some (Obj (<["applicant" := VRef l2]> o))
    ∧ h' !! l2 = Some (Obj (delete "totalLoan" a))
    ∧ (∀ a0, fields h (default VUndef (o !! "applicant")) = Some a0 → a = a0).
Proof.
  intros Ho.
  set (l := fresh (dom h)).
  set (h1 := <[l := Obj o]> h).
  set (w := default VUndef (o !! "applicant")).
  set (l2 := fresh (dom h1)).
  set (a := ownProps h1 w).
  assert (Hl : h !! l = None) by apply fresh_lookup.
  assert (Hl2 : h1 !! l2 = None) by apply fresh_lookup.
  assert (Hne : l ≠ l2).
  { intros E. pose proof Hl2 as H2. unfold l2 in H2, E.
    rewrite <- E in H2. unfold h1 in H2.
    by rewrite lookup_insert_eq in H2. }
  assert (Hsub1 : h ⊆ h1) by (by apply insert_subseteq).
  exists l, l2, a,
    (<[l2 := Obj (delete "totalLoan" a)]>
       (<[l := Obj (<["applicant" := VRef l2]> o)]>
          (<[l2 := Obj a]> h1))).
  split_and!.
  - unfold processLoan, strict_eq. rewrite bool_decide_eq_true_2 by done.
    rewrite (bind_normal _ _ h (VRef l) h1);
      [|by unfold spread, alloc; rewrite (ownProps_fields _ _ _ Ho)].
    rewrite (bind_normal _ _ h1 w h1);
      [|by rewrite (getProp_record _ _ _ o); [|by eapply fields_mono]].
    rewrite (bind_normal _ _ h1 (VRef l2) (<[l2 := Obj a]> h1)); [|done].
    rewrite (bind_normal _ _ _ ()
               (<[l := Obj (<["applicant" := VRef l2]> o)]>
                  (<[l2 := Obj a]> h1))).
    2:{ unfold setProp. rewrite lookup_insert_ne by done.
        unfold h1. by rewrite lookup_insert_eq. }
    rewrite (bind_normal _ _ _ (VRef l2)
               (<[l := Obj (<["applicant" := VRef l2]> o)]>
                  (<[l2 := Obj a]> h1))).
    2:{ unfold getProp. rewrite lookup_insert_eq. simpl.
        by rewrite lookup_insert_eq. }
    rewrite (bind_normal _ _ _ ()
               (<[l2 := Obj (delete "totalLoan" a)]>
                  (<[l := Obj (<["applicant" := VRef l2]> o)]>
                     (<[l2 := Obj a]> h1)))); [done|].
    unfold deleteProp. rewrite lookup_insert_ne by done.
    by rewrite lookup_insert_eq.
  - apply map_subseteq_spec. intros i c Hi.
    assert (i ≠ l) by (intros E; rewrite E in Hi; congruence).
    assert (i ≠ l2).
    { intros E. rewrite E in Hi.
      rewrite (lookup_weaken _ _ _ _ Hi Hsub1) in Hl2. done. }
    rewrite !lookup_insert_ne by done. unfold h1.
    by rewrite lookup_insert_ne.
  - by apply not_elem_of_dom.
  - apply not_elem_of_dom. destruct (h !! l2) eqn:E; [|done].
    by rewrite (lookup_weaken _ _ _ _ E Hsub1) in Hl2.
  - done.
  - rewrite lookup_insert_ne by done. by rewrite lookup_insert_eq.
  - by rewrite lookup_insert_eq.
  - intros a0 Ha0. unfold a. apply ownProps_fields.
    by eapply fields_mono.
Qed.

(** [mapM] over callbacks that only extend the heap: the results satisfy
    a postcondition that is stable under extension. *)
Lemma mapM_extends {A B} (f : A → js B) (h0 : heap)
    (P : A → Prop) (Q : heap → A → B → Prop) :
  (∀ (h h' : heap) x y, Q h x y → h ⊆ h' → Q h' x y) →
  (∀ (h : heap) x, h0 ⊆ h → P x →
     ∃ y h', f x h = (Normal y, h') ∧ h ⊆ h' ∧ Q h' x y) →
  ∀ xs (h : heap), h0 ⊆ h → Forall P xs →
    ∃ ys h', mapM f xs h = (Normal ys, h') ∧ h ⊆ h' ∧ Forall2 (Q h') xs ys.
Proof.
  intros Hstable Hf xs. induction xs as [|x xs IH]; intros h Hh HP.
  - exists [], h. by split_and!.
  - inversion HP as [|? ? Hx Hxs]; subst.
    destruct (Hf h x Hh Hx) as (y & h1 & Ey & Hsub1 & Hq).
    destruct (IH h1) as (ys & h2 & Eys & Hsub2 & Hqs);
      [by etrans | done |].
    exists (y :: ys), h2. split_and!.
    + simpl. rewrite (bind_normal _ _ _ _ _ Ey).
      by rewrite (bind_normal _ _ _ _ _ Eys).
    + by etrans.
    + constructor; [by eapply Hstable | done].
Qed.

Lemma elements_of_array what (h : heap) v xs :
  elems_of h v = Some xs → elements_of what v h = (Normal xs, h).
Proof.
  destruct v as [| | | | |l]; simpl; try done.
  by destruct (h !! l) as [[o|ys]|]; intros; simplify_eq.
Qed.

Lemma alloc_array (h : heap) ys :
  ∃ out h', alloc (Arr ys) h = (Normal out, h') ∧ h ⊆ h'
            ∧ elems_of h' out = Some ys
            ∧ ∃ l, out = VRef l ∧ l ∉ dom h.
Proof.
  exists (VRef (fresh (dom h))), (<[fresh (dom h) := Arr ys]> h).
  split_and!; [done | apply alloc_extends | | ].
  - simpl. by rewrite lookup_insert_eq.
  - eexists. split; [done | apply is_fresh].
Qed.

Lemma processLoansByRole_other role loans (h : heap) xs :
  role ≠ VStr "staff" → record_store h loans xs →
  ∃ out ys h',
    processLoansByRole loans role h = (Normal out, h')
    ∧ h ⊆ h' ∧ elems_of h' out = Some ys
    ∧ (∃ l, out = VRef l ∧ l ∉ dom h)
    ∧ Forall2 (copy_of h h') xs ys.
Proof.
  intros Hrole [Hxs Hrec].
  destruct (mapM_extends (processLoan role) h
              (λ x, is_record h x = true) (copy_of h)) with (xs := xs) (h := h)
    as (ys & h1 & Eys & Hsub1 & Hq).
  - intros h1 h2 x y (l & -> & Hl & Hc) Hsub. exists l.
    split_and!; [done | done | by eapply lookup_weaken].
  - intros h1 x Hsub Hx. rewrite (processLoan_other _ _ _ Hrole).
    destruct (is_record_fields _ _ Hx) as (lx & o & -> & Ho).
    eexists _, _. split_and!; [done | apply alloc_extends |].
    exists (fresh (dom h1)). split_and!; [done | |].
    + intros Hin. apply (is_fresh (dom h1)).
      by eapply (subseteq_dom h h1).
    + rewrite lookup_insert_eq. simpl.
      by rewrite Ho, (lookup_weaken _ _ _ _ Ho Hsub).
  - done.
  - by apply forallb_Forall.
  - destruct (alloc_array h1 ys) as (out & h2 & Eout & Hsub2 & Hel & l & -> & Hl).
    exists (VRef l), ys, h2. split_and!.
    + unfold processLoansByRole, array_map.
      rewrite (bind_normal _ _ _ _ _ (elements_of_array _ _ _ _ Hxs)).
      by rewrite (bind_normal _ _ _ _ _ Eys).
    + by etrans.
    + done.
    + exists l. split; [done|]. intros Hin. apply Hl.
      by eapply (subseteq_dom h h1).
    + eapply Forall2_impl; [exact Hq|]. intros x y (l' & -> & ? & ?).
      exists l'. split_and!; [done | done | by eapply lookup_weaken].
Qed.

Lemma processLoansByRole_staff loans (h : heap) xs :
  record_store h loans xs →
  ∃ out ys h',
    processLoansByRole loans (VStr "staff") h = (Normal out, h')
    ∧ h ⊆ h' ∧ elems_of h' out = Some ys
    ∧ (∃ l, out = VRef l ∧ l ∉ dom h)
    ∧ Forall2 (redacted_copy_of h h') xs ys.
Proof.
  intros [Hxs Hrec].
  destruct (mapM_extends (processLoan (VStr "staff")) h
              (λ x, is_record h x = true) (redacted_copy_of h))
    with (xs := xs) (h := h) as (ys & h1 & Eys & Hsub1 & Hq).
  - intros h1 h2 x y (l & l2 & o & a & -> & ? & ? & ? & ? & ? & ?) Hsub.
    exists l, l2, o, a.
    split_and!; try done; by eapply lookup_weaken.
  - intros h1 x Hsub Hx.
    destruct (is_record_fields _ _ Hx) as (lx & o & -> & Ho).
    assert (Hf : fields h (VRef lx) = Some o) by (simpl; by rewrite Ho).
    destruct (processLoan_staff (VRef lx) h1 o)
      as (l & l2 & a & h2 & E & Hsub2 & Hl & Hl2 & _ & Hc & Hc2 & Ha).
    { by eapply fields_mono. }
    exists (VRef l), h2. split_and!; [done | done |].
    exists l, l2, o, a. split_and!; try done.
    + intros Hin. apply Hl. by eapply (subseteq_dom h h1).
    + intros Hin. apply Hl2. by eapply (subseteq_dom h h1).
    + intros a0 Ha0. apply Ha. unfold applicant_of in Ha0.
      rewrite Hf in Ha0.
      destruct (o !! "applicant") as [w|] eqn:Ew; [|done]. simpl.
      by eapply fields_mono.
  - done.
  - by apply forallb_Forall.
  - destruct (alloc_array h1 ys) as (out & h2 & Eout & Hsub2 & Hel & l & -> & Hl).
    exists (VRef l), ys, h2. split_and!.
    + unfold processLoansByRole, array_map.
      rewrite (bind_normal _ _ _ _ _ (elements_of_array _ _ _ _ Hxs)).
      by rewrite (bind_normal _ _ _ _ _ Eys).
    + by etrans.
    + done.
    + exists l. split; [done|]. intros Hin. apply Hl.
      by eapply (subseteq_dom h h1).
    + eapply Forall2_impl; [exact Hq|].
      intros x y (l' & l2 & o & a & -> & ? & ? & ? & ? & ? & ?).
      exists l', l2, o, a.
      split_and!; try done; by eapply lookup_weaken.
Qed.

(** ** The gates *)

Lemma authMiddleware_no_token req (h : heap) :
  truthy (or_else (cookie_token req) (bearer_token req)) = false →
  authMiddleware req h
  = (Normal (NextError (new_Error "Unauthorized - No token provided" 401)), h).
Proof. intros E. unfold authMiddleware, try_catch. by rewrite E. Qed.

Lemma authMiddleware_verified req decoded (h : heap) :
  authenticated req decoded →
  authMiddleware req h = (Normal (Next (set_user req decoded)), h).
Proof.
  intros [Ht Hv]. unfold authMiddleware, try_catch. by rewrite Ht, Hv.
Qed.

Lemma authMiddleware_rejected req e (h : heap) :
  truthy (or_else (cookie_token req) (bearer_token req)) = true →
  jwt_verify (or_else (cookie_token req) (bearer_token req)) = Rejected e →
  authMiddleware req h
  = (Normal (NextError
       (if String.eqb (name e) "JsonWebTokenError"
        then {| name := name e; message := "Unauthorized - Invalid token";
                statusCode := Some 401%Z |}
        else e)), h).
Proof.
  intros Ht Hv. unfold authMiddleware, try_catch. rewrite Ht, Hv. simpl.
  by destruct (String.eqb (name e) "JsonWebTokenError").
Qed.

Lemma run_next m rest req req' (h h' : heap) :
  m req h = (Normal (Next req'), h') →
  run (m :: rest) req h = run rest req' h'.
Proof.
  intros E. simpl. unfold bind, try_catch. by rewrite E.
Qed.

Lemma run_error m rest req e (h h' : heap) :
  m req h = (Normal (NextError e), h') →
  run (m :: rest) req h = (Normal (errorHandler e), h').
Proof.
  intros E. simpl. unfold bind, try_catch. by rewrite E.
Qed.

Lemma run_responded m rest req res (h h' : heap) :
  m req h = (Normal (Responded res), h') →
  run (m :: rest) req h = (Normal res, h').
Proof.
  intros E. simpl. unfold bind, try_catch. by rewrite E.
Qed.

(** Every protected route starts with [authMiddleware]. *)
Lemma protected_route_auth now route :
  route ∈ protected_routes now →
  ∃ rest, route = run (authMiddleware :: rest).
Proof.
  unfold protected_routes. rewrite !elem_of_cons, elem_of_nil.
  intros [->|[->|[->|[->|[]]]]]; eexists; reflexivity.
Qed.

Lemma protected_route_rejects now route req e (h : heap) :
  route ∈ protected_routes now →
  authMiddleware req h = (Normal (NextError e), h) →
  route req h = (Normal (errorHandler e), h).
Proof.
  intros [rest ->]%protected_route_auth E. by apply run_error.
Qed.

Lemma user_role_bound req decoded (h : heap) :
  user_role (set_user req decoded) h = (Normal (role_of decoded), h).
Proof. done. Qed.

Lemma authMiddleware_outcome req (h : heap) :
  authMiddleware req h
  = (Normal
       (if truthy (cookie_token req)
        then gate_outcome req (jwt_verify (cookie_token req))
        else if truthy (bearer_token req)
        then gate_outcome req (jwt_verify (bearer_token req))
        else NextError (new_Error "Unauthorized - No token provided" 401)),
     h).
Proof.
  unfold authMiddleware, try_catch, or_else.
  destruct (truthy (cookie_token req)) eqn:Ec; simpl.
  - rewrite Ec. simpl. destruct (jwt_verify (cookie_token req)); simpl; [done|].
    by destruct (String.eqb (name e) "JsonWebTokenError").
  - destruct (truthy (bearer_token req)) eqn:Eb; simpl; [|done].
    destruct (jwt_verify (bearer_token req)); simpl; [done|].
    by destruct (String.eqb (name e) "JsonWebTokenError").
Qed.

(** A token that fails verification with a [JsonWebTokenError] (bad
    signature, malformed token) is answered 401 with the invalid-token
    message, which is not the no-token message. *)
Lemma invalid_token_yields_401 now route req msg (h : heap) :
  route ∈ protected_routes now →
  truthy (or_else (cookie_token req) (bearer_token req)) = true →
  jwt_verify (or_else (cookie_token req) (bearer_token req))
  = Rejected (JsonWebTokenError msg) →
  route req h
  = (Normal (error_response 401 "Unauthorized - Invalid token"), h)
  ∧ "Unauthorized - Invalid token" ≠ "Unauthorized - No token provided".
Proof.
  intros Hroute Ht Hv. split; [|done].
  by rewrite (protected_route_rejects now _ _ _ _ Hroute
                (authMiddleware_rejected _ _ _ Ht Hv)).
Qed.

(** C2, as the code behaves on an expired token: on every protected
    route, a token that [jwt.verify] rejects with [TokenExpiredError] is
    answered with status 500 and the library's message, not with 401 and
    the invalid-token message.  Only an error named [JsonWebTokenError]
    is rewritten by the authentication middleware. *)
Theorem expired_token_yields_500 now route req (h : heap) :
  route ∈ protected_routes now →
  truthy (or_else (cookie_token req) (bearer_token req)) = true →
  jwt_verify (or_else (cookie_token req) (bearer_token req))
  = Rejected TokenExpiredError →
  route req h = (Normal (error_response 500 "jwt expired"), h).
Proof.
  intros Hroute Ht Hv.
  by rewrite (protected_route_rejects now _ _ _ _ Hroute
                (authMiddleware_rejected _ _ _ Ht Hv)).
Qed.

(** C9, amended: the token is the cookie named [token] when that cookie
    is truthy; when the cookie is absent or empty the second
    space-separated piece of the [Authorization] header is used instead;
    when neither gives a truthy token every protected route answers 401
    'Unauthorized - No token provided', whatever [jwt.verify] would have
    said. *)
Theorem auth_gate_token_precedence req (h : heap) :
  authMiddleware req h
  = (Normal
       (if truthy (cookie_token req)
        then gate_outcome req (jwt_verify (cookie_token req))
        else if truthy (bearer_token req)
        then gate_outcome req (jwt_verify (bearer_token req))
        else NextError (new_Error "Unauthorized - No token provided" 401)),
     h)
  ∧ (∀ now route,
       route ∈ protected_routes now →
       truthy (cookie_token req) = false →
       truthy (bearer_token req) = false →
       route req h
       = (Normal (error_response 401 "Unauthorized - No token provided"), h)).
Proof.
  split; [apply authMiddleware_outcome|].
  intros now route Hroute Hc Hb.
  apply (protected_route_rejects now route req
           (new_Error "Unauthorized - No token provided" 401)); [done|].
  apply authMiddleware_no_token. unfold or_else. by rewrite Hc.
Qed.

(** ** Searches that only read the heap *)

Lemma getProp_read (h : heap) v k :
  is_record h v = true → getProp v k h = (Normal (read h v k), h).
Proof.
  intros (l & o & -> & Ho)%is_record_fields.
  unfold read. simpl. by rewrite Ho.
Qed.

Lemma filterM_pure {A} (p : A → js bool) (q : A → bool) xs (h : heap) :
  Forall (λ x, p x h = (Normal (q x), h)) xs →
  filterM p xs h = (Normal (List.filter q xs), h).
Proof.
  induction 1 as [|x xs Hx _ IH]; [done|]. simpl.
  rewrite (bind_normal _ _ _ _ _ Hx), (bind_normal _ _ _ _ _ IH).
  by destruct (q x).
Qed.

Lemma findM_pure {A} (p : A → js bool) (q : A → bool) xs (h : heap) :
  Forall (λ x, p x h = (Normal (q x), h)) xs →
  findM p xs h = (Normal (List.find q xs), h).
Proof.
  induction 1 as [|x xs Hx _ IH]; [done|]. simpl.
  rewrite (bind_normal _ _ _ _ _ Hx). by destruct (q x).
Qed.

Lemma find_none_Forall {A} (q : A → bool) (xs : list A) :
  Forall (λ x, q x = false) xs → List.find q xs = None.
Proof. induction 1 as [|x xs Hx _ IH]; [done|]. simpl. by rewrite Hx. Qed.

Lemma find_some_elem {A} (q : A → bool) (xs : list A) x :
  x ∈ xs → q x = true → is_Some (List.find q xs).
Proof.
  induction 1 as [x xs|x y xs _ IH]; intros Hq; simpl.
  - rewrite Hq. eauto.
  - destruct (q y); eauto.
Qed.

(** The existence check of the delete route on a store of records. *)
Lemma loan_exists_spec loanId (h : heap) xs :
  record_store h loansData xs →
  array_some "loansData.some"
    (λ loan, let! id := getProp loan "id" in ret (strict_eq id loanId))
    loansData h
  = (Normal (bool_decide (is_Some
       (List.find (λ loan, strict_eq (read h loan "id") loanId) xs))), h).
Proof.
  intros [Hxs Hrec]. unfold array_some.
  rewrite (bind_normal _ _ _ _ _ (elements_of_array _ _ _ _ Hxs)).
  erewrite bind_normal; [done|].
  apply (findM_pure _ (λ loan, strict_eq (read h loan "id") loanId)).
  eapply Forall_impl; [by apply forallb_Forall|].
  intros x Hx. simpl. by rewrite (bind_normal _ _ _ _ _ (getProp_read _ _ _ Hx)).
Qed.

(** C5: on [DELETE /api/loans/:loanId], an identity whose role is
    ['staff'] or ['admin'] is stopped by the role gate with 403, for any
    loan store and without the handler being reached; a ['superAdmin']
    asking for an id that no loan of the store has is answered 404. *)
Theorem delete_forbidden_or_not_found req decoded (h : heap) :
  authenticated req decoded →
  (role_of decoded = VStr "staff" ∨ role_of decoded = VStr "admin" →
   authorizeRoles [VStr "superAdmin"] (set_user req decoded) h
   = (Normal (NextError
        (new_Error "Forbidden - Insufficient permissions" 403)), h)
   ∧ delete_api_loans req h
     = (Normal (error_response 403 "Forbidden - Insufficient permissions"),
        h))
  ∧ (role_of decoded = VStr "superAdmin" →
     ∀ xs, record_store h loansData xs →
           Forall (λ loan, read h loan "id" ≠ param req "loanId") xs →
           delete_api_loans req h
           = (Normal (error_response 404 "Loan not found"), h)).
Proof.
  intros Hauth. split.
  - intros Hrole.
    assert (Hgate :
      authorizeRoles [VStr "superAdmin"] (set_user req decoded) h
      = (Normal (NextError
           (new_Error "Forbidden - Insufficient permissions" 403)), h)).
    { unfold authorizeRoles.
      rewrite (bind_normal _ _ _ _ _ (user_role_bound _ _ _)).
      rewrite bool_decide_eq_false_2; [done|].
      rewrite !elem_of_cons, elem_of_nil. by destruct Hrole as [-> | ->]; intros [|[]]. }
    split; [done|]. unfold delete_api_loans.
    rewrite (run_next _ _ _ _ _ _ (authMiddleware_verified _ _ h Hauth)).
    by rewrite (run_error _ _ _ _ _ _ Hgate).
  - intros Hrole xs Hstore Hnone. unfold delete_api_loans.
    rewrite (run_next _ _ _ _ _ _ (authMiddleware_verified _ _ h Hauth)).
    rewrite (run_next _ _ _ (set_user req decoded) h h).
    2:{ unfold authorizeRoles.
        rewrite (bind_normal _ _ _ _ _ (user_role_bound _ _ _)).
        rewrite Hrole. by rewrite bool_decide_eq_true_2 by constructor. }
    apply (run_error _ _ _ (new_Error "Loan not found" 404)).
    unfold delete_loan_handler.
    rewrite (try_catch_throw _ _ h (new_Error "Loan not found" 404) h);
      [done|].
    rewrite (bind_normal _ _ _ _ _ (loan_exists_spec _ _ _ Hstore)).
    rewrite find_none_Forall; [done|].
    eapply Forall_impl; [exact Hnone|]. intros x Hx. simpl.
    unfold strict_eq. by rewrite bool_decide_eq_false_2.
Qed.

(** ** Shaping a selection of the store *)

Lemma Forall_forallb {A} (f : A → bool) (xs : list A) :
  Forall (λ x, f x = true) xs → forallb f xs = true.
Proof. induction 1 as [|x xs Hx _ IH]; [done|]. simpl. by rewrite Hx, IH. Qed.

Lemma is_record_mono (h h' : heap) v :
  h ⊆ h' → is_record h v = true → is_record h' v = true.
Proof.
  intros Hsub [o Ho]%bool_decide_eq_true. apply bool_decide_eq_true.
  exists o. by eapply fields_mono.
Qed.

Lemma read_mono (h h' : heap) v k :
  h ⊆ h' → is_record h v = true → read h' v k = read h v k.
Proof.
  intros Hsub [o Ho]%bool_decide_eq_true.
  rewrite (read_record _ _ _ _ Ho).
  by rewrite (read_record _ _ _ _ (fields_mono _ _ _ _ Hsub Ho)).
Qed.

Lemma copy_of_rebase (h0 h1 h' : heap) x y :
  h0 ⊆ h1 → is_record h0 x = true → copy_of h1 h' x y → copy_of h0 h' x y.
Proof.
  intros Hsub [o Ho]%bool_decide_eq_true (l & -> & Hl & Hc).
  exists l. split_and!; [done | |].
  - intros Hin. apply Hl. by eapply (subseteq_dom h0 h1).
  - rewrite Hc. do 2 f_equal.
    rewrite (ownProps_fields _ _ _ Ho).
    by apply ownProps_fields, (fields_mono h0).
Qed.

Lemma redacted_copy_of_rebase (h0 h1 h' : heap) x y :
  h0 ⊆ h1 → is_record h0 x = true →
  redacted_copy_of h1 h' x y → redacted_copy_of h0 h' x y.
Proof.
  intros Hsub [o0 Ho0]%bool_decide_eq_true
    (l & l2 & o & a & -> & Hl & Hl2 & Ho & Hc & Hc2 & Ha).
  rewrite (fields_mono _ _ _ _ Hsub Ho0) in Ho. simplify_eq.
  exists l, l2, o, a. split_and!; try done.
  - intros Hin. apply Hl. by eapply (subseteq_dom h0 h1).
  - intros Hin. apply Hl2. by eapply (subseteq_dom h0 h1).
  - intros a0 Ha0. apply Ha. by eapply applicant_of_mono.
Qed.

(** A returned record shows the property values of the stored one, the
    applicant reference of a redacted copy apart. *)
Lemma shaped_read role (h0 h' : heap) x y k :
  shaped role h0 h' x y → is_record h0 x = true → k ≠ "applicant" →
  read h' y k = read h0 x k.
Proof.
  intros Hs [o Ho]%bool_decide_eq_true Hk.
  rewrite (read_record _ _ _ _ Ho). unfold shaped in Hs.
  destruct (bool_decide (role = VStr "staff")).
  - destruct Hs as (l & l2 & o' & a & -> & _ & _ & Ho' & Hc & _).
    simplify_eq. unfold read. simpl. rewrite Hc. simpl.
    by rewrite lookup_insert_ne.
  - destruct Hs as (l & -> & _ & Hc).
    unfold read. simpl. rewrite Hc. simpl.
    by rewrite (ownProps_fields _ _ _ Ho).
Qed.

Lemma loans_response_array (h : heap) out ys :
  elems_of h out = Some ys →
  loans_response out h = (Normal (Responded (loans_ok ys out)), h).
Proof.
  intros E. destruct out as [| | | | |l]; simpl in E; try done.
  destruct (h !! l) as [[o|zs]|] eqn:El; simplify_eq.
  unfold loans_response, array_length, bind, getProp. by rewrite El.
Qed.

(** The tail shared by the three read routes: shape the selected
    records for the role and send them. *)
Lemma shape_and_respond role arr sel (h0 h1 : heap) :
  h0 ⊆ h1 → elems_of h1 arr = Some sel →
  Forall (λ x, is_record h0 x = true) sel →
  ∃ out ys h',
    (let! processedLoans := processLoansByRole arr role in
     loans_response processedLoans) h1
    = (Normal (Responded (loans_ok ys out)), h')
    ∧ h1 ⊆ h' ∧ elems_of h' out = Some ys
    ∧ Forall2 (shaped role h0 h') sel ys.
Proof.
  intros Hsub Harr Hrec.
  assert (Hstore : record_store h1 arr sel).
  { split; [done|]. apply Forall_forallb.
    eapply Forall_impl; [exact Hrec|]. intros x. by apply is_record_mono. }
  destruct (decide (role = VStr "staff")) as [->|Hrole].
  - destruct (processLoansByRole_staff arr h1 sel Hstore)
      as (out & ys & h' & E & Hsub' & Hel & _ & Hq).
    exists out, ys, h'. split_and!; try done.
    + rewrite (bind_normal _ _ _ _ _ E). by apply loans_response_array.
    + unfold shaped. rewrite bool_decide_eq_true_2 by done.
      clear E Hel Hstore Harr.
      induction Hq as [|x y xs ys Hxy _ IH]; [constructor|].
      inversion Hrec; subst. constructor; [|by apply IH].
      by eapply redacted_copy_of_rebase.
  - destruct (processLoansByRole_other role arr h1 sel Hrole Hstore)
      as (out & ys & h' & E & Hsub' & Hel & _ & Hq).
    exists out, ys, h'. split_and!; try done.
    + rewrite (bind_normal _ _ _ _ _ E). by apply loans_response_array.
    + unfold shaped. rewrite bool_decide_eq_false_2 by done.
      clear E Hel Hstore Harr.
      induction Hq as [|x y xs ys Hxy _ IH]; [constructor|].
      inversion Hrec; subst. constructor; [|by apply IH].
      by eapply copy_of_rebase.
Qed.

(** [arr.filter(p)] for a callback that only reads the heap. *)
Lemma array_filter_pure what (p : val → js bool) (q : val → bool) arr xs
    (h : heap) :
  elems_of h arr = Some xs →
  Forall (λ x, p x h = (Normal (q x), h)) xs →
  ∃ out h', array_filter what p arr h = (Normal out, h')
            ∧ h ⊆ h' ∧ elems_of h' out = Some (List.filter q xs).
Proof.
  intros Hxs Hp.
  destruct (alloc_array h (List.filter q xs))
    as (out & h' & E & Hsub & Hel & _).
  exists out, h'. split_and!; try done.
  unfold array_filter.
  rewrite (bind_normal _ _ _ _ _ (elements_of_array _ _ _ _ Hxs)).
  by rewrite (bind_normal _ _ _ _ _ (filterM_pure _ _ _ _ Hp)).
Qed.

Lemma filter_records {A} (P : A → Prop) (q : A → bool) (xs : list A) :
  Forall P xs → Forall P (List.filter q xs).
Proof.
  induction 1 as [|x xs Hx _ IH]; simpl; [constructor|].
  destruct (q x); [by constructor | done].
Qed.

(** ** The read routes *)

Lemma iterate_array what (h : heap) v xs :
  elems_of h v = Some xs → iterate what v h = (Normal xs, h).
Proof.
  destruct v as [| | | | |l]; simpl; try done.
  by destruct (h !! l) as [[o|ys]|]; intros; simplify_eq.
Qed.

Lemma record_store_records (h : heap) store xs :
  record_store h store xs → Forall (λ x, is_record h x = true) xs.
Proof. intros [_ H]. by apply forallb_Forall. Qed.

(** [GET /api/loans] for an authenticated request over a store of
    records: the selected loans, shaped for the role. *)
Lemma get_api_loans_spec req decoded (h : heap) xs :
  authenticated req decoded → record_store h loansData xs →
  ∃ out ys h',
    get_api_loans req h = (Normal (loans_ok ys out), h')
    ∧ h ⊆ h' ∧ elems_of h' out = Some ys
    ∧ Forall2 (shaped (role_of decoded) h h')
        (selected_by_status h (default VUndef (query req !! "status")) xs) ys.
Proof.
  intros Hauth Hstore. pose proof (record_store_records _ _ _ Hstore) as Hrec.
  destruct Hstore as [Hxs _].
  set (st := default VUndef (query req !! "status")).
  destruct (alloc_array h xs) as (arr & h1 & Earr & Hsub1 & Hel1 & _).
  assert (Hfilter : ∃ arr2 h2,
    (if truthy st
     then array_filter "filteredLoans.filter"
            (λ loan, let! s := getProp loan "status" in
                     ret (strict_eq s st)) arr
     else ret arr) h1 = (Normal arr2, h2)
    ∧ h1 ⊆ h2 ∧ elems_of h2 arr2 = Some (selected_by_status h st xs)).
  { unfold selected_by_status. destruct (truthy st).
    - apply array_filter_pure; [done|].
      eapply Forall_impl; [exact Hrec|]. intros x Hx. simpl.
      rewrite (bind_normal _ _ _ _ _
                 (getProp_read _ _ _ (is_record_mono _ _ _ Hsub1 Hx))).
      by rewrite (read_mono _ _ _ _ Hsub1 Hx).
    - by exists arr, h1. }
  destruct Hfilter as (arr2 & h2 & E2 & Hsub2 & Hel2).
  destruct (shape_and_respond (role_of decoded) arr2
              (selected_by_status h st xs) h h2)
    as (out & ys & h' & E & Hsub' & Hel & Hq).
  { by etrans. }
  { done. }
  { unfold selected_by_status. destruct (truthy st); [|done].
    by apply filter_records. }
  exists out, ys, h'. split_and!; try done.
  - unfold get_api_loans.
    rewrite (run_next _ _ _ _ _ _ (authMiddleware_verified _ _ h Hauth)).
    apply run_responded. unfold loans_handler.
    apply try_catch_normal.
    rewrite (bind_normal _ _ _ _ _ (iterate_array _ _ _ _ Hxs)).
    rewrite (bind_normal _ _ _ _ _ Earr).
    change (default VUndef (query (set_user req decoded) !! "status")) with st.
    rewrite (bind_normal _ _ _ _ _ E2).
    rewrite (bind_normal _ _ _ _ _ (user_role_bound _ _ _)).
    exact E.
  - by do 2 (etrans; [eassumption|]).
Qed.

(** A falsy [status] and an absent one take the same path. *)
Lemma get_api_loans_falsy_status req s (h : heap) :
  query req !! "status" = Some s → truthy s = false →
  get_api_loans req h = get_api_loans (without_status req) h.
Proof.
  intros Hq Hs. unfold get_api_loans. simpl. unfold bind, try_catch.
  rewrite !authMiddleware_outcome.
  change (cookie_token (without_status req)) with (cookie_token req).
  change (bearer_token (without_status req)) with (bearer_token req).
  assert (Hgo : ∀ decoded h0,
    loans_handler (set_user req decoded) h0
    = loans_handler (set_user (without_status req) decoded) h0).
  { intros decoded h0. unfold loans_handler. simpl.
    rewrite Hq, lookup_delete_eq. simpl. by rewrite Hs. }
  destruct (truthy (cookie_token req)).
  - destruct (jwt_verify (cookie_token req)); simpl; [|done].
    by rewrite Hgo.
  - destruct (truthy (bearer_token req)); [|done].
    destruct (jwt_verify (bearer_token req)); simpl; [|done].
    by rewrite Hgo.
Qed.

(** C10: on [GET /api/loans], a [status] query parameter that is present
    but falsy, the empty string in particular, is treated as an absent
    filter: the response is that of the request without the parameter,
    and it carries the whole loan dataset shaped for the role. *)
Theorem falsy_status_is_no_filter req decoded (h : heap) xs s :
  authenticated req decoded → record_store h loansData xs →
  query req !! "status" = Some s → truthy s = false →
  get_api_loans req h = get_api_loans (without_status req) h
  ∧ ∃ out ys h',
      get_api_loans req h = (Normal (loans_ok ys out), h')
      ∧ elems_of h' out = Some ys
      ∧ Forall2 (shaped (role_of decoded) h h') xs ys.
Proof.
  intros Hauth Hstore Hq Hs. split; [by eapply get_api_loans_falsy_status|].
  destruct (get_api_loans_spec req decoded h xs Hauth Hstore)
    as (out & ys & h' & E & _ & Hel & Hsh).
  exists out, ys, h'. split_and!; try done.
  rewrite Hq in Hsh. simpl in Hsh. unfold selected_by_status in Hsh.
  by rewrite Hs in Hsh.
Qed.

Lemma Forall2_elem_l {A B} (R : A → B → Prop) xs ys x :
  Forall2 R xs ys → x ∈ xs → ∃ y, y ∈ ys ∧ R x y.
Proof.
  induction 1 as [|x' y' xs ys Hxy _ IH]; intros Hin.
  - by apply elem_of_nil in Hin.
  - apply elem_of_cons in Hin as [->|Hin].
    + exists y'. split; [left | done].
    + destruct (IH Hin) as (y & Hy & HR). exists y. split; [by right | done].
Qed.

(** C4: a ['superAdmin'] deleting an existing loan is answered 200 with
    the success envelope and the heap, hence the loan store, is exactly
    what it was; a following [GET /api/loans] returns every record of the
    store, the acknowledged one included. *)
Theorem delete_acknowledges_without_removing req decoded (h : heap) xs
    id loan :
  authenticated req decoded → role_of decoded = VStr "superAdmin" →
  record_store h loansData xs →
  params req !! "loanId" = Some id →
  loan ∈ xs → read h loan "id" = VStr id →
  delete_api_loans req h
  = (Normal {| status := 200;
               json := SuccessJson
                 ("Loan with ID " ++ id ++ " has been deleted");
               cookie := None |}, h)
  ∧ ∀ req' decoded',
      authenticated req' decoded' → query req' !! "status" = None →
      ∃ out ys h',
        get_api_loans req' (snd (delete_api_loans req h))
        = (Normal (loans_ok ys out), h')
        ∧ elems_of h' out = Some ys
        ∧ Forall2 (shaped (role_of decoded') h h') xs ys
        ∧ ∃ y, y ∈ ys ∧ read h' y "id" = VStr id.
Proof.
  intros Hauth Hrole Hstore Hid Hin Hread.
  assert (Hdel : delete_api_loans req h
    = (Normal {| status := 200;
                 json := SuccessJson
                   ("Loan with ID " ++ id ++ " has been deleted");
                 cookie := None |}, h)).
  { unfold delete_api_loans.
    rewrite (run_next _ _ _ _ _ _ (authMiddleware_verified _ _ h Hauth)).
    rewrite (run_next _ _ _ (set_user req decoded) h h).
    2:{ unfold authorizeRoles.
        rewrite (bind_normal _ _ _ _ _ (user_role_bound _ _ _)).
        rewrite Hrole. by rewrite bool_decide_eq_true_2 by constructor. }
    apply run_responded. unfold delete_loan_handler.
    apply try_catch_normal.
    rewrite (bind_normal _ _ _ _ _ (loan_exists_spec _ _ _ Hstore)).
    assert (Hp : param (set_user req decoded) "loanId" = VStr id).
    { unfold param. simpl. by rewrite Hid. }
    rewrite Hp. rewrite bool_decide_eq_true_2; [done|].
    apply (find_some_elem _ _ loan); [done|].
    rewrite Hread. unfold strict_eq. by rewrite bool_decide_eq_true_2. }
  split; [done|]. intros req' decoded' Hauth' Hq'. rewrite Hdel. simpl.
  destruct (get_api_loans_spec req' decoded' h xs Hauth' Hstore)
    as (out & ys & h' & E & _ & Hel & Hsh).
  rewrite Hq' in Hsh. simpl in Hsh.
  exists out, ys, h'. split_and!; try done.
  pose proof (record_store_records _ _ _ Hstore) as Hrec.
  destruct (Forall2_elem_l _ _ _ _ Hsh Hin) as (y & Hy & Hxy).
  exists y. split; [done|]. rewrite <- Hread.
  apply (shaped_read _ _ _ _ _ _ Hxy); [|done].
  rewrite Forall_forall in Hrec. by apply Hrec.
Qed.

Lemma is_expired_record now (h : heap) loan :
  is_record h loan = true →
  is_expired now loan h = (Normal (matures_before h now loan), h).
Proof.
  intros Hrec. unfold is_expired.
  by rewrite (bind_normal _ _ _ _ _ (getProp_read _ _ _ Hrec)).
Qed.

Lemma date_lt_spec a now :
  date_lt a (Some now) = true ↔ ∃ m, a = Some m ∧ (m < now)%Z.
Proof.
  destruct a as [m|]; simpl.
  - rewrite Z.ltb_lt. split; [eauto|]. by intros (? & [= ->] & ?).
  - split; [done|]. by intros (? & ? & ?).
Qed.

(** C7: at every instant [now], [GET /api/expired-loans] selects, before
    shaping, exactly the loans of the dataset whose [maturityDate] is
    strictly before [now], in the order of the dataset, and returns that
    selection shaped for the role. *)
Theorem expired_loans_exact now req decoded (h : heap) xs :
  authenticated req decoded → record_store h loansData xs →
  ∃ expiredLoans h1,
    array_filter "loansData.filter" (is_expired now) loansData h
    = (Normal expiredLoans, h1)
    ∧ elems_of h1 expiredLoans = Some (List.filter (matures_before h now) xs)
    ∧ (∀ loan,
         loan ∈ List.filter (matures_before h now) xs
         ↔ loan ∈ xs
           ∧ ∃ m, Date_value h (read h loan "maturityDate") = Some m
                  ∧ (m < now)%Z)
    ∧ ∃ out ys h',
        get_api_expired_loans now req h = (Normal (loans_ok ys out), h')
        ∧ elems_of h' out = Some ys
        ∧ Forall2 (shaped (role_of decoded) h h')
            (List.filter (matures_before h now) xs) ys.
Proof.
  intros Hauth Hstore.
  pose proof (record_store_records _ _ _ Hstore) as Hrec.
  destruct Hstore as [Hxs _].
  destruct (array_filter_pure "loansData.filter" (is_expired now)
              (matures_before h now) loansData xs h Hxs)
    as (arr & h1 & Earr & Hsub1 & Hel1).
  { eapply Forall_impl; [exact Hrec|]. intros x Hx.
    by apply is_expired_record. }
  exists arr, h1. split_and!; try done.
  - intros loan. rewrite !list_elem_of_In, filter_In.
    unfold matures_before. by rewrite date_lt_spec.
  - destruct (shape_and_respond (role_of decoded) arr
                (List.filter (matures_before h now) xs) h h1)
      as (out & ys & h' & E & Hsub' & Hel & Hq); try done.
    { by apply filter_records. }
    exists out, ys, h'. split_and!; try done.
    unfold get_api_expired_loans.
    rewrite (run_next _ _ _ _ _ _ (authMiddleware_verified _ _ h Hauth)).
    apply run_responded. unfold expired_loans_handler.
    apply try_catch_normal.
    rewrite (bind_normal _ _ _ _ _ Earr).
    rewrite (bind_normal _ _ _ _ _ (user_role_bound _ _ _)).
    exact E.
Qed.

(** ** Case-insensitive lookup by applicant email *)




Lemma getProp_read_string (h : heap) v k s :
  read h v k = VStr s → getProp v k h = (Normal (VStr s), h).
Proof.
  unfold read. destruct (getProp v k h) as [[x|e] h2] eqn:E; [|done].
  intros ->. by rewrite (getProp_heap _ _ _ _ _ E).
Qed.

Lemma email_matches_record userEmail (h : heap) loan s :
  is_record h loan = true →
  read h (read h loan "applicant") "email" = VStr s →
  email_matches (VStr userEmail) loan h
  = (Normal (email_equals_ci h userEmail loan), h).
Proof.
  intros Hrec Hs. unfold email_matches.
  rewrite (bind_normal _ _ _ _ _ (getProp_read _ _ _ Hrec)).
  rewrite (bind_normal _ _ _ _ _ (getProp_read_string _ _ _ _ Hs)).
  unfold email_equals_ci. rewrite Hs. simpl.
  unfold bind, ret, strict_eq. simpl. f_equal. f_equal.
  destruct (String.eqb_spec (toLowerCase s) (toLowerCase userEmail)) as [->|Hne].
  - by rewrite bool_decide_eq_true_2.
  - rewrite bool_decide_eq_false_2; [done|]. by intros [= ?].
Qed.




(** ** Visibility of [totalLoan] and sharing with the store *)

Lemma redacted_hides (h h' : heap) x y :
  redacted_copy_of h h' x y → hides_totalLoan h h' x y.
Proof.
  intros (l & l2 & o & a & -> & _ & _ & Ho & Hc & Hc2 & Ha).
  exists o, (<["applicant" := VRef l2]> o), (delete "totalLoan" a).
  split_and!; try done.
  - simpl. by rewrite Hc.
  - intros k Hk. by rewrite lookup_insert_ne.
  - unfold applicant_of. simpl. rewrite Hc, lookup_insert_eq. simpl.
    by rewrite Hc2.
  - apply lookup_delete_eq.
  - intros a0 Ha0. by rewrite (Ha a0 Ha0).
Qed.

Lemma copy_shows (h h' : heap) x y :
  h ⊆ h' → is_record h x = true → copy_of h h' x y →
  shows_everything h h' x y.
Proof.
  intros Hsub [o Ho]%bool_decide_eq_true (l & -> & _ & Hc).
  rewrite (ownProps_fields _ _ _ Ho) in Hc.
  exists o. split_and!; [done | by simpl; rewrite Hc |].
  intros a Ha. unfold applicant_of in *. simpl. rewrite Hc.
  rewrite Ho in Ha. destruct (o !! "applicant") as [w|]; [|done].
  by eapply fields_mono.
Qed.

Lemma copy_shallow (h h' : heap) x y :
  is_record h x = true → copy_of h h' x y → shallow_copy h h' x y.
Proof.
  intros [o Ho]%bool_decide_eq_true (l & -> & Hl & Hc).
  rewrite (ownProps_fields _ _ _ Ho) in Hc.
  exists l, o. split_and!; try done.
  rewrite (read_record _ _ _ _ Ho). unfold read. simpl. by rewrite Hc.
Qed.

Lemma Forall2_impl_l {A B} (P : A → Prop) (R S : A → B → Prop) xs ys :
  Forall P xs → Forall2 R xs ys → (∀ x y, P x → R x y → S x y) →
  Forall2 S xs ys.
Proof.
  intros HP HR Himp. induction HR as [|x y xs ys Hxy _ IH]; [constructor|].
  inversion HP; subst. constructor; auto.
Qed.

(** C1: shaping a list of loan records for ['staff'] returns, in order,
    one record per loan whose applicant has no [totalLoan] key; shaping
    the same list for ['admin'] or ['superAdmin'] returns records with
    every property, and the applicant with its [totalLoan], as stored. *)
Theorem shaping_hides_totalLoan_from_staff_only loans (h : heap) xs :
  record_store h loans xs →
  (∃ out ys h',
     processLoansByRole loans (VStr "staff") h = (Normal out, h')
     ∧ elems_of h' out = Some ys
     ∧ Forall2 (hides_totalLoan h h') xs ys)
  ∧ (∀ role, role = VStr "admin" ∨ role = VStr "superAdmin" →
       ∃ out ys h',
         processLoansByRole loans role h = (Normal out, h')
         ∧ elems_of h' out = Some ys
         ∧ Forall2 (shows_everything h h') xs ys).
Proof.
  intros Hstore. pose proof (record_store_records _ _ _ Hstore) as Hrec.
  split.
  - destruct (processLoansByRole_staff loans h xs Hstore)
      as (out & ys & h' & E & _ & Hel & _ & Hq).
    exists out, ys, h'. split_and!; try done.
    eapply Forall2_impl; [exact Hq|]. intros x y. apply redacted_hides.
  - intros role Hrole.
    destruct (processLoansByRole_other role loans h xs) as
      (out & ys & h' & E & Hsub & Hel & _ & Hq); [|done|].
    { by destruct Hrole as [-> | ->]. }
    exists out, ys, h'. split_and!; try done.
    eapply Forall2_impl_l; [exact Hrec | exact Hq |].
    intros x y Hx Hxy. by apply copy_shows.
Qed.

(** C3, amended: for ['admin'] and ['superAdmin'] the shaper returns a
    new array of new record objects, none of which is an object of the
    store, and leaves every object of the store as it was; each new
    record holds the stored property values, so that its [applicant] is
    the very object the store holds. *)
Theorem shaping_copies_one_level role loans (h : heap) xs :
  role = VStr "admin" ∨ role = VStr "superAdmin" →
  record_store h loans xs →
  ∃ out ys h',
    processLoansByRole loans role h = (Normal out, h')
    ∧ h ⊆ h'
    ∧ (∃ l, out = VRef l ∧ l ∉ dom h)
    ∧ elems_of h' out = Some ys
    ∧ Forall2 (shallow_copy h h') xs ys.
Proof.
  intros Hrole Hstore. pose proof (record_store_records _ _ _ Hstore) as Hrec.
  destruct (processLoansByRole_other role loans h xs) as
    (out & ys & h' & E & Hsub & Hel & Hfresh & Hq); [|done|].
  { by destruct Hrole as [-> | ->]. }
  exists out, ys, h'. split_and!; try done.
  eapply Forall2_impl_l; [exact Hrec | exact Hq |].
  intros x y Hx Hxy. by apply copy_shallow.
Qed.

(** ** Login *)

Lemma find_first {A} (q : A → bool) (pre : list A) x post :
  Forall (λ y, q y = false) pre → q x = true →
  List.find q (pre ++ x :: post)%list = Some x.
Proof.
  induction 1 as [|y pre Hy _ IH]; intros Hx; simpl.
  - by rewrite Hx.
  - rewrite Hy. by apply IH.
Qed.

Lemma staff_lookup_spec email (h : heap) xs :
  record_store h staffsData xs →
  array_find "staffsData.find"
    (λ s, let! e := getProp s "email" in ret (strict_eq e email))
    staffsData h
  = (Normal (default VUndef
       (List.find (λ s, strict_eq (read h s "email") email) xs)), h).
Proof.
  intros [Hxs Hrec]. unfold array_find.
  rewrite (bind_normal _ _ _ _ _ (elements_of_array _ _ _ _ Hxs)).
  erewrite bind_normal; [done|].
  apply (findM_pure _ (λ s, strict_eq (read h s "email") email)).
  eapply Forall_impl; [by apply forallb_Forall|].
  intros x Hx. simpl. by rewrite (bind_normal _ _ _ _ _ (getProp_read _ _ _ Hx)).
Qed.

(** C6, amended: [POST /api/login] answers 400 when [email] or
    [password] is absent from the body or is falsy (the empty string,
    [null], [0], [false]); when both are truthy it answers 401 with the
    one message 'Invalid credentials' both when no staff record has that
    email and when the first record with that email stores another
    password. *)
Theorem login_failures req b (h : heap) :
  body req = Some b →
  (truthy (default VUndef (b !! "email")) = false
   ∨ truthy (default VUndef (b !! "password")) = false →
   post_api_login req h
   = (Normal (error_response 400 "Email and password are required"), h))
  ∧ (truthy (default VUndef (b !! "email")) = true →
     truthy (default VUndef (b !! "password")) = true →
     ∀ xs, record_store h staffsData xs →
       (Forall (λ s, read h s "email" ≠ default VUndef (b !! "email")) xs →
        post_api_login req h
        = (Normal (error_response 401 "Invalid credentials"), h))
       ∧ (∀ (pre : list val) s post,
            xs = (pre ++ s :: post)%list →
            Forall (λ s', read h s' "email" ≠ default VUndef (b !! "email"))
              pre →
            read h s "email" = default VUndef (b !! "email") →
            read h s "password" ≠ default VUndef (b !! "password") →
            post_api_login req h
            = (Normal (error_response 401 "Invalid credentials"), h))).
Proof.
  intros Hb. split.
  - intros Hfalsy.
    apply (run_error _ _ _ (new_Error "Email and password are required" 400)).
    unfold login_handler. rewrite Hb.
    rewrite (try_catch_throw _ _ h
               (new_Error "Email and password are required" 400) h); [done|].
    destruct Hfalsy as [-> | ->]; [done|]. by rewrite orb_true_r.
  - intros He Hp xs Hstore.
    pose proof (record_store_records _ _ _ Hstore) as Hrec. split.
    + intros Hnone.
      apply (run_error _ _ _ (new_Error "Invalid credentials" 401)).
      unfold login_handler. rewrite Hb, He, Hp. simpl.
      rewrite (try_catch_throw _ _ h (new_Error "Invalid credentials" 401) h);
        [done|].
      rewrite (bind_normal _ _ _ _ _ (staff_lookup_spec _ _ _ Hstore)).
      rewrite find_none_Forall; [done|].
      eapply Forall_impl; [exact Hnone|]. intros x Hx. simpl.
      unfold strict_eq. by rewrite bool_decide_eq_false_2.
    + intros pre s post -> Hpre Hs Hpw.
      apply (run_error _ _ _ (new_Error "Invalid credentials" 401)).
      unfold login_handler. rewrite Hb, He, Hp. simpl.
      rewrite (try_catch_throw _ _ h (new_Error "Invalid credentials" 401) h);
        [done|].
      rewrite (bind_normal _ _ _ _ _ (staff_lookup_spec _ _ _ Hstore)).
      rewrite (find_first _ pre s post).
      2:{ eapply Forall_impl; [exact Hpre|]. intros x Hx. simpl.
          unfold strict_eq. by rewrite bool_decide_eq_false_2. }
      2:{ unfold strict_eq. by rewrite bool_decide_eq_true_2. }
      simpl.
      assert (Hsrec : is_record h s = true).
      { rewrite Forall_forall in Hrec. apply Hrec.
        apply elem_of_app. right. constructor. }
      destruct (is_record_fields _ _ Hsrec) as (l & o & -> & Ho). simpl.
      rewrite (bind_normal _ _ _ _ _ (getProp_read _ _ _ Hsrec)).
      unfold strict_eq. rewrite bool_decide_eq_false_2; [done|].
      by intros E.
Qed.

(** ** The heap discipline of the routes *)

Lemma reads_only_preserves {A} (m : js A) : reads_only m → preserves_heap m.
Proof. intros H h. by rewrite H. Qed.

Lemma reads_only_ret {A} (a : A) : reads_only (ret a).
Proof. done. Qed.

Lemma reads_only_throw {A} e : reads_only (@throw A e).
Proof. done. Qed.

Lemma reads_only_bind {A B} (m : js A) (k : A → js B) :
  reads_only m → (∀ a, reads_only (k a)) → reads_only (bind m k).
Proof.
  intros Hm Hk h. unfold bind. specialize (Hm h).
  destruct (m h) as [[a|e] h1]; simpl in *; subst; [apply Hk | done].
Qed.

Lemma reads_only_try_catch {A} (m : js A) handler :
  reads_only m → (∀ e, reads_only (handler e)) →
  reads_only (try_catch m handler).
Proof.
  intros Hm Hk h. unfold try_catch. specialize (Hm h).
  destruct (m h) as [[a|e] h1]; simpl in *; subst; [done | apply Hk].
Qed.

Lemma preserves_heap_bind {A B} (m : js A) (k : A → js B) :
  preserves_heap m → (∀ a, preserves_heap (k a)) →
  preserves_heap (bind m k).
Proof.
  intros Hm Hk h. unfold bind. specialize (Hm h).
  destruct (m h) as [[a|e] h1]; simpl in *; [|done].
  etrans; [exact Hm | apply Hk].
Qed.

Lemma preserves_heap_try_catch {A} (m : js A) handler :
  preserves_heap m → (∀ e, preserves_heap (handler e)) →
  preserves_heap (try_catch m handler).
Proof.
  intros Hm Hk h. unfold try_catch. specialize (Hm h).
  destruct (m h) as [[a|e] h1]; simpl in *; [done|].
  etrans; [exact Hm | apply Hk].
Qed.

Lemma preserves_heap_alloc c : preserves_heap (alloc c).
Proof. intros h. apply alloc_extends. Qed.

Lemma reads_only_getProp v k : reads_only (getProp v k).
Proof.
  intros h. destruct (getProp v k h) as [r h'] eqn:E.
  by rewrite (getProp_heap _ _ _ _ _ E).
Qed.

Lemma reads_only_elements_of what v : reads_only (elements_of what v).
Proof.
  intros h. unfold elements_of.
  destruct v as [| | | | |l]; try done. by destruct (h !! l) as [[o|xs]|].
Qed.

Lemma reads_only_iterate what v : reads_only (iterate what v).
Proof.
  intros h. unfold iterate.
  destruct v as [| | | | |l]; try done. by destruct (h !! l) as [[o|xs]|].
Qed.

Lemma reads_only_call_toLowerCase what v :
  reads_only (call_toLowerCase what v).
Proof. by destruct v. Qed.

Lemma reads_only_filterM {A} (p : A → js bool) xs :
  (∀ x, reads_only (p x)) → reads_only (filterM p xs).
Proof.
  intros Hp. induction xs as [|x xs IH]; [done|]. simpl.
  apply reads_only_bind; [done|]. intros keep.
  apply reads_only_bind; [done|]. by intros ys.
Qed.

Lemma reads_only_findM {A} (p : A → js bool) xs :
  (∀ x, reads_only (p x)) → reads_only (findM p xs).
Proof.
  intros Hp. induction xs as [|x xs IH]; [done|]. simpl.
  apply reads_only_bind; [done|]. by intros [].
Qed.

Lemma preserves_heap_mapM {A B} (f : A → js B) xs :
  (∀ x, preserves_heap (f x)) → preserves_heap (mapM f xs).
Proof.
  intros Hf. induction xs as [|x xs IH]; [by apply reads_only_preserves|].
  simpl. apply preserves_heap_bind; [done|]. intros y.
  apply preserves_heap_bind; [done|]. intros ys.
  by apply reads_only_preserves.
Qed.

Lemma preserves_heap_array_filter what (p : val → js bool) arr :
  (∀ x, reads_only (p x)) → preserves_heap (array_filter what p arr).
Proof.
  intros Hp. unfold array_filter.
  apply preserves_heap_bind;
    [apply reads_only_preserves, reads_only_elements_of|]. intros xs.
  apply preserves_heap_bind;
    [by apply reads_only_preserves, reads_only_filterM|]. intros ys.
  apply preserves_heap_alloc.
Qed.

Lemma reads_only_array_some what (p : val → js bool) arr :
  (∀ x, reads_only (p x)) → reads_only (array_some what p arr).
Proof.
  intros Hp. unfold array_some.
  apply reads_only_bind; [apply reads_only_elements_of|]. intros xs.
  apply reads_only_bind; [by apply reads_only_findM|]. by intros r.
Qed.

Lemma reads_only_array_find what (p : val → js bool) arr :
  (∀ x, reads_only (p x)) → reads_only (array_find what p arr).
Proof.
  intros Hp. unfold array_find.
  apply reads_only_bind; [apply reads_only_elements_of|]. intros xs.
  apply reads_only_bind; [by apply reads_only_findM|]. by intros r.
Qed.

(** The [map] callback writes to the two objects it has just allocated
    and to nothing else, for every role and every element, also when it
    throws. *)
Lemma preserves_heap_processLoan role loan :
  preserves_heap (processLoan role loan).
Proof.
  intros h. unfold processLoan, strict_eq.
  destruct (bool_decide (role = VStr "staff")).
  2:{ unfold spread, alloc, bind. simpl. apply alloc_extends. }
  set (l := fresh (dom h)).
  set (h1 := <[l := Obj (ownProps h loan)]> h).
  assert (Hl : h !! l = None) by apply fresh_lookup.
  assert (Hsub1 : h ⊆ h1) by (by apply insert_subseteq).
  rewrite (bind_normal _ _ h (VRef l) h1); [|done].
  destruct (getProp loan "applicant" h1) as [[w|e] h1'] eqn:Ew;
    rewrite (getProp_heap _ _ _ _ _ Ew) in Ew.
  2:{ by rewrite (bind_throw _ _ _ _ _ Ew). }
  rewrite (bind_normal _ _ _ _ _ Ew).
  set (l2 := fresh (dom h1)).
  set (a := ownProps h1 w).
  assert (Hl2 : h1 !! l2 = None) by apply fresh_lookup.
  assert (Hne : l ≠ l2).
  { intros E. pose proof Hl2 as H2. unfold l2 in H2, E.
    rewrite <- E in H2. unfold h1 in H2.
    by rewrite lookup_insert_eq in H2. }
  rewrite (bind_normal _ _ h1 (VRef l2) (<[l2 := Obj a]> h1)); [|done].
  rewrite (bind_normal _ _ _ ()
             (<[l := Obj (<["applicant" := VRef l2]> (ownProps h loan))]>
                (<[l2 := Obj a]> h1))).
  2:{ unfold setProp. rewrite lookup_insert_ne by done.
      unfold h1. by rewrite lookup_insert_eq. }
  rewrite (bind_normal _ _ _ (VRef l2)
             (<[l := Obj (<["applicant" := VRef l2]> (ownProps h loan))]>
                (<[l2 := Obj a]> h1))).
  2:{ unfold getProp. rewrite lookup_insert_eq. simpl.
      by rewrite lookup_insert_eq. }
  rewrite (bind_normal _ _ _ ()
             (<[l2 := Obj (delete "totalLoan" a)]>
                (<[l := Obj (<["applicant" := VRef l2]> (ownProps h loan))]>
                   (<[l2 := Obj a]> h1)))).
  2:{ unfold deleteProp. rewrite lookup_insert_ne by done.
      by rewrite lookup_insert_eq. }
  simpl. apply map_subseteq_spec. intros i c Hi.
  assert (i ≠ l) by (intros E; rewrite E in Hi; congruence).
  assert (i ≠ l2).
  { intros E. rewrite E in Hi.
    rewrite (lookup_weaken _ _ _ _ Hi Hsub1) in Hl2. done. }
  rewrite !lookup_insert_ne by done. unfold h1.
  by rewrite lookup_insert_ne.
Qed.

Lemma preserves_heap_processLoansByRole loans role :
  preserves_heap (processLoansByRole loans role).
Proof.
  unfold processLoansByRole, array_map.
  apply preserves_heap_bind;
    [apply reads_only_preserves, reads_only_elements_of|]. intros xs.
  apply preserves_heap_bind.
  - apply preserves_heap_mapM. intros x. apply preserves_heap_processLoan.
  - intros ys. apply preserves_heap_alloc.
Qed.

Lemma reads_only_user_role req : reads_only (user_role req).
Proof. unfold user_role. by destruct (user req). Qed.

Lemma preserves_heap_shape_and_send arr req :
  preserves_heap
    (let! role := user_role req in
     let! processedLoans := processLoansByRole arr role in
     loans_response processedLoans).
Proof.
  apply preserves_heap_bind;
    [apply reads_only_preserves, reads_only_user_role|]. intros role.
  apply preserves_heap_bind; [apply preserves_heap_processLoansByRole|].
  intros out. apply reads_only_preserves. unfold loans_response, array_length.
  apply reads_only_bind; [apply reads_only_getProp | by intros r].
Qed.

Lemma reads_only_authMiddleware req : reads_only (authMiddleware req).
Proof. intros h. by rewrite authMiddleware_outcome. Qed.

Lemma reads_only_authorizeRoles roles req :
  reads_only (authorizeRoles roles req).
Proof.
  unfold authorizeRoles. apply reads_only_bind; [apply reads_only_user_role|].
  intros role. by destruct (bool_decide (role ∈ roles)).
Qed.

Lemma reads_only_run chain :
  Forall (λ m, ∀ req, reads_only (m req)) chain →
  ∀ req, reads_only (run chain req).
Proof.
  induction 1 as [|m rest Hm _ IH]; intros req; [done|]. simpl.
  apply reads_only_bind.
  - apply reads_only_try_catch; [apply Hm | done].
  - intros [req'|e|res]; [apply IH | done | done].
Qed.

Lemma preserves_heap_run chain :
  Forall (λ m, ∀ req, preserves_heap (m req)) chain →
  ∀ req, preserves_heap (run chain req).
Proof.
  induction 1 as [|m rest Hm _ IH]; intros req;
    [by apply reads_only_preserves|]. simpl.
  apply preserves_heap_bind.
  - apply preserves_heap_try_catch; [apply Hm|].
    intros e. by apply reads_only_preserves.
  - intros [req'|e|res];
      [apply IH | by apply reads_only_preserves
      | by apply reads_only_preserves].
Qed.

Lemma reads_only_login_handler req : reads_only (login_handler req).
Proof.
  unfold login_handler. apply reads_only_try_catch; [|done].
  destruct (body req) as [b|]; [|done].
  destruct (negb (truthy (default VUndef (b !! "email")))
            || negb (truthy (default VUndef (b !! "password")))); [done|].
  apply reads_only_bind.
  { apply reads_only_array_find. intros s.
    apply reads_only_bind; [apply reads_only_getProp | done]. }
  intros staff. destruct (negb (truthy staff)); [done|].
  apply reads_only_bind; [apply reads_only_getProp|]. intros stored.
  destruct (negb (strict_eq (default VUndef (b !! "password")) stored));
    [done|].
  repeat (apply reads_only_bind; [apply reads_only_getProp|]; intros ?).
  done.
Qed.

Lemma reads_only_delete_loan_handler req :
  reads_only (delete_loan_handler req).
Proof.
  unfold delete_loan_handler. apply reads_only_try_catch; [|done].
  apply reads_only_bind.
  { apply reads_only_array_some. intros loan.
    apply reads_only_bind; [apply reads_only_getProp | done]. }
  by intros [].
Qed.

Lemma preserves_heap_loans_handler req :
  preserves_heap (loans_handler req).
Proof.
  unfold loans_handler. apply preserves_heap_try_catch;
    [|by intros e; apply reads_only_preserves].
  apply preserves_heap_bind;
    [apply reads_only_preserves, reads_only_iterate|]. intros copied.
  apply preserves_heap_bind; [apply preserves_heap_alloc|]. intros arr.
  apply preserves_heap_bind.
  { destruct (truthy (default VUndef (query req !! "status")));
      [|by apply reads_only_preserves].
    apply preserves_heap_array_filter. intros loan.
    apply reads_only_bind; [apply reads_only_getProp | done]. }
  intros arr2. apply preserves_heap_shape_and_send.
Qed.

Lemma preserves_heap_expired_loans_handler now req :
  preserves_heap (expired_loans_handler now req).
Proof.
  unfold expired_loans_handler. apply preserves_heap_try_catch;
    [|by intros e; apply reads_only_preserves].
  apply preserves_heap_bind; [|intros arr; apply preserves_heap_shape_and_send].
  apply preserves_heap_array_filter. intros loan. unfold is_expired.
  apply reads_only_bind; [apply reads_only_getProp | done].
Qed.

Lemma preserves_heap_user_loans_handler req :
  preserves_heap (user_loans_handler req).
Proof.
  unfold user_loans_handler. apply preserves_heap_try_catch;
    [|by intros e; apply reads_only_preserves].
  apply preserves_heap_bind; [|intros arr; apply preserves_heap_shape_and_send].
  apply preserves_heap_array_filter. intros loan. unfold email_matches.
  apply reads_only_bind; [apply reads_only_getProp|]. intros a.
  apply reads_only_bind; [apply reads_only_getProp|]. intros e.
  apply reads_only_bind; [apply reads_only_call_toLowerCase|]. intros lhs.
  apply reads_only_bind; [apply reads_only_call_toLowerCase | done].
Qed.

(** X1: no request changes or removes an object of the heap.  Login,
    logout and delete leave the heap exactly as it was for every request
    and every outcome; the three read routes only add the objects of
    their response, also when they end in an error. *)
Theorem routes_never_mutate_the_store now req (h : heap) :
  (∀ route, route ∈ plain_routes → snd (route req h) = h)
  ∧ (∀ route, route ∈ read_routes now → h ⊆ snd (route req h)).
Proof.
  split; intros route.
  - unfold plain_routes. rewrite !elem_of_cons, elem_of_nil.
    intros [->|[->|[->|[]]]]; apply reads_only_run;
      repeat first [apply Forall_nil_2 | apply Forall_cons_2]; intros r;
      first [ apply reads_only_login_handler
            | apply reads_only_authMiddleware
            | apply reads_only_authorizeRoles
            | apply reads_only_delete_loan_handler
            | by intros h0 ].
  - unfold read_routes. rewrite !elem_of_cons, elem_of_nil.
    intros [->|[->|[->|[]]]]; apply preserves_heap_run;
      repeat first [apply Forall_nil_2 | apply Forall_cons_2]; intros r;
      first [ apply reads_only_preserves, reads_only_authMiddleware
            | apply preserves_heap_loans_handler
            | apply preserves_heap_expired_loans_handler
            | apply preserves_heap_user_loans_handler ].
Qed.

(** ** What the gates let through *)

Lemma gate_outcome_next req r req' :
  gate_outcome req r = Next req' →
  ∃ decoded, r = Verified decoded ∧ req' = set_user req decoded.
Proof. destruct r as [d|e]; simpl; [|done]. intros [= <-]. eauto. Qed.

Lemma authMiddleware_cases req (h : heap) :
  (∃ decoded, authenticated req decoded
              ∧ authMiddleware req h
                = (Normal (Next (set_user req decoded)), h))
  ∨ (∃ e, authMiddleware req h = (Normal (NextError e), h)).
Proof.
  rewrite authMiddleware_outcome. unfold authenticated, or_else.
  destruct (truthy (cookie_token req)) eqn:Ec.
  - destruct (jwt_verify (cookie_token req)) as [d|e] eqn:Ev; simpl.
    + left. exists d. by rewrite Ec.
    + right. eauto.
  - destruct (truthy (bearer_token req)) eqn:Eb; [|right; eauto].
    destruct (jwt_verify (bearer_token req)) as [d|e] eqn:Ev; simpl.
    + left. exists d. by split; [split; simpl|].
    + right. eauto.
Qed.

(** X2: a protected route answers with something other than the error
    envelope only to a request whose token was verified: without a
    verified token the handler is not reached, whatever the route and the
    store. *)
Theorem no_answer_without_verified_token now route req (h h' : heap) res :
  route ∈ protected_routes now →
  route req h = (Normal res, h') →
  (∀ code msg, json res ≠ ErrorJson code msg) →
  ∃ decoded, authenticated req decoded.
Proof.
  intros Hroute Hres Hjson.
  destruct (authMiddleware_cases req h) as [(d & Hd & _)|[e He]]; [eauto|].
  rewrite (protected_route_rejects now _ _ _ _ Hroute He) in Hres.
  injection Hres as <- _. by destruct (Hjson _ _ eq_refl).
Qed.

(** X3: [DELETE /api/loans/:loanId] sends its success envelope only to
    a request whose verified claims carry the role ['superAdmin']. *)
Theorem delete_succeeds_only_for_superAdmin req (h h' : heap) res msg :
  delete_api_loans req h = (Normal res, h') →
  json res = SuccessJson msg →
  ∃ decoded, authenticated req decoded ∧ role_of decoded = VStr "superAdmin".
Proof.
  intros Hres Hjson.
  destruct (authMiddleware_cases req h) as [(d & Hd & Hnext)|[e He]].
  - exists d. split; [done|]. unfold delete_api_loans in Hres.
    rewrite (run_next _ _ _ _ _ _ Hnext) in Hres.
    destruct (decide (role_of d = VStr "superAdmin")) as [|Hne]; [done|].
    rewrite (run_error _ _ _
               (new_Error "Forbidden - Insufficient permissions" 403) h h)
      in Hres.
    + injection Hres as <- _. done.
    + unfold authorizeRoles.
      rewrite (bind_normal _ _ _ _ _ (user_role_bound _ _ _)).
      rewrite bool_decide_eq_false_2; [done|].
      rewrite !elem_of_cons, elem_of_nil. by intros [|[]].
  - unfold delete_api_loans in Hres.
    rewrite (run_error _ _ _ _ _ _ He) in Hres.
    injection Hres as <- _. done.
Qed.

(** X4: with a truthy [status] query parameter, [GET /api/loans]
    returns, shaped and in the order of the dataset, exactly the loans
    whose [status] is strictly equal to the parameter; a value that no
    loan has gives the empty list, still with status 200. *)
Theorem status_filter_is_exact req decoded (h : heap) xs s :
  authenticated req decoded → record_store h loansData xs →
  query req !! "status" = Some s → truthy s = true →
  ∃ out ys h',
    get_api_loans req h = (Normal (loans_ok ys out), h')
    ∧ elems_of h' out = Some ys
    ∧ Forall2 (shaped (role_of decoded) h h')
        (List.filter (λ loan, strict_eq (read h loan "status") s) xs) ys
    ∧ (∀ loan,
         loan ∈ List.filter (λ loan, strict_eq (read h loan "status") s) xs
         ↔ loan ∈ xs ∧ read h loan "status" = s).
Proof.
  intros Hauth Hstore Hq Hs.
  destruct (get_api_loans_spec req decoded h xs Hauth Hstore)
    as (out & ys & h' & E & _ & Hel & Hsh).
  rewrite Hq in Hsh. simpl in Hsh. unfold selected_by_status in Hsh.
  rewrite Hs in Hsh.
  exists out, ys, h'. split_and!; try done.
  intros loan. rewrite !list_elem_of_In, filter_In. unfold strict_eq.
  by rewrite bool_decide_eq_true.
Qed.

(** X5: the shaper hides [totalLoan] from the role ['staff'] and from no
    other value: for any other role, a missing one or ['Staff'] with a
    capital included, the returned records show every property and the
    applicant as stored. *)
Theorem every_other_role_sees_totalLoan role loans (h : heap) xs :
  role ≠ VStr "staff" → record_store h loans xs →
  ∃ out ys h',
    processLoansByRole loans role h = (Normal out, h')
    ∧ elems_of h' out = Some ys
    ∧ Forall2 (shows_everything h h') xs ys.
Proof.
  intros Hrole Hstore.
  pose proof (record_store_records _ _ _ Hstore) as Hrec.
  destruct (processLoansByRole_other role loans h xs Hrole Hstore) as
    (out & ys & h' & E & Hsub & Hel & _ & Hq).
  exists out, ys, h'. split_and!; try done.
  eapply Forall2_impl_l; [exact Hrec | exact Hq |].
  intros x y Hx Hxy. by apply copy_shows.
Qed.

(** ** Sessions *)

Lemma login_success_response req b (h : heap) xs pre s post :
  body req = Some b →
  truthy (default VUndef (b !! "email")) = true →
  truthy (default VUndef (b !! "password")) = true →
  record_store h staffsData xs →
  xs = (pre ++ s :: post)%list →
  Forall (λ s', read h s' "email" ≠ default VUndef (b !! "email")) pre →
  read h s "email" = default VUndef (b !! "email") →
  read h s "password" = default VUndef (b !! "password") →
  post_api_login req h
  = (Normal (login_ok (staff_claims h s) (jwt_sign h (staff_claims h s))), h).
Proof.
  intros Hb He Hp Hstore -> Hpre Hs Hpw.
  pose proof (record_store_records _ _ _ Hstore) as Hrec.
  apply run_responded. unfold login_handler. rewrite Hb, He, Hp. simpl.
  apply try_catch_normal.
  rewrite (bind_normal _ _ _ _ _ (staff_lookup_spec _ _ _ Hstore)).
  rewrite (find_first _ pre s post).
  2:{ eapply Forall_impl; [exact Hpre|]. intros x Hx. simpl.
      unfold strict_eq. by rewrite bool_decide_eq_false_2. }
  2:{ unfold strict_eq. by rewrite bool_decide_eq_true_2. }
  simpl.
  assert (Hsrec : is_record h s = true).
  { rewrite Forall_forall in Hrec. apply Hrec.
    apply elem_of_app. right. constructor. }
  destruct (is_record_fields _ _ Hsrec) as (l & o & -> & Ho). simpl.
  rewrite (bind_normal _ _ _ _ _ (getProp_read _ _ _ Hsrec)).
  unfold strict_eq. rewrite bool_decide_eq_true_2 by done. simpl.
  by rewrite !(bind_normal _ _ _ _ _ (getProp_read _ _ _ Hsrec)).
Qed.

Lemma staff_claims_dom (h : heap) s :
  dom (staff_claims h s) = {["id"; "name"; "email"; "role"]}.
Proof.
  clear. unfold staff_claims. rewrite !dom_insert_L, dom_empty_L.
  apply set_eq. intros k.
  rewrite !elem_of_union, !elem_of_singleton, elem_of_empty. tauto.
Qed.

(** X6: a login whose email is that of a staff record, the first with
    that email, and whose password is the stored one is answered 200;
    the [user] object and the signed claims are the stored [id], [name],
    [email] and [role] and nothing else (the password is not among them);
    the same token goes into the body and into an http-only cookie of one
    hour; the heap is untouched. *)
Theorem login_success req b (h : heap) xs pre s post :
  body req = Some b →
  truthy (default VUndef (b !! "email")) = true →
  truthy (default VUndef (b !! "password")) = true →
  record_store h staffsData xs →
  xs = (pre ++ s :: post)%list →
  Forall (λ s', read h s' "email" ≠ default VUndef (b !! "email")) pre →
  read h s "email" = default VUndef (b !! "email") →
  read h s "password" = default VUndef (b !! "password") →
  post_api_login req h
  = (Normal (login_ok (staff_claims h s) (jwt_sign h (staff_claims h s))), h)
  ∧ dom (staff_claims h s) = {["id"; "name"; "email"; "role"]}
  ∧ role_of (staff_claims h s) = read h s "role".
Proof.
  intros Hb He Hp Hstore Hxs Hpre Hs Hpw. split_and!.
  - by eapply login_success_response.
  - apply staff_claims_dom.
  - done.
Qed.

Lemma split_space_no_space s : no_space s = true → split_space s = [s].
Proof.
  induction s as [|c s IH]; [done|]. simpl.
  intros [Hc Hs]%andb_true_iff. apply negb_true_iff in Hc.
  by rewrite Hc, (IH Hs).
Qed.

Lemma split_space_cons_piece a b :
  no_space a = true →
  split_space (a ++ String " "%char b) = a :: split_space b.
Proof.
  induction a as [|c a IH]; [done|]. simpl.
  intros [Hc Ha]%andb_true_iff. apply negb_true_iff in Hc.
  by rewrite Hc, (IH Ha).
Qed.

Lemma bearer_token_second_piece req scheme tok :
  no_space scheme = true → no_space tok = true →
  authorization req = Some (scheme ++ " " ++ tok) →
  bearer_token req = VStr tok.
Proof.
  intros Hs Ht Ha. unfold bearer_token. rewrite Ha.
  change (scheme ++ " " ++ tok) with (scheme ++ String " "%char tok).
  by rewrite (split_space_cons_piece _ _ Hs), (split_space_no_space _ Ht).
Qed.

(** X7: the header fallback takes the second space-separated piece of
    [Authorization] whatever the first piece is: the scheme word is not
    compared with ['Bearer'], what follows a further space is ignored,
    and a header without a space gives no token. *)
Theorem bearer_token_ignores_scheme req scheme tok :
  no_space scheme = true → no_space tok = true →
  (authorization req = Some (scheme ++ " " ++ tok) →
   bearer_token req = VStr tok)
  ∧ (∀ rest, authorization req = Some (scheme ++ " " ++ tok ++ " " ++ rest) →
             bearer_token req = VStr tok)
  ∧ (authorization req = Some scheme → bearer_token req = VUndef).
Proof.
  intros Hs Ht. split_and!.
  - by apply bearer_token_second_piece.
  - intros rest Ha. unfold bearer_token. rewrite Ha.
    change (scheme ++ " " ++ tok ++ " " ++ rest)
      with (scheme ++ String " "%char (tok ++ String " "%char rest)).
    by rewrite (split_space_cons_piece _ _ Hs), (split_space_cons_piece _ _ Ht).
  - intros Ha. unfold bearer_token. rewrite Ha.
    by rewrite (split_space_no_space _ Hs).
Qed.

(** X8: when [jwt.verify] accepts the token that a successful login
    signed and returns claims that include the signed ones (the library
    adds [iat] and [exp] to them), a later request carrying that token in
    the [token] cookie, or after ['Bearer '] in the [Authorization]
    header with no cookie, passes the gate, is bound to the returned
    claims, and its [req.user.role] is the stored role of the staff
    record. *)
Theorem login_token_opens_the_gate req b (h : heap) xs pre s post req'
    decoded :
  body req = Some b →
  truthy (default VUndef (b !! "email")) = true →
  truthy (default VUndef (b !! "password")) = true →
  record_store h staffsData xs →
  xs = (pre ++ s :: post)%list →
  Forall (λ s', read h s' "email" ≠ default VUndef (b !! "email")) pre →
  read h s "email" = default VUndef (b !! "email") →
  read h s "password" = default VUndef (b !! "password") →
  jwt_verify (VStr (jwt_sign h (staff_claims h s))) = Verified decoded →
  staff_claims h s ⊆ decoded →
  jwt_sign h (staff_claims h s) ≠ "" →
  no_space (jwt_sign h (staff_claims h s)) = true →
  cookies req' !! "token" = Some (VStr (jwt_sign h (staff_claims h s)))
  ∨ (cookies req' !! "token" = None
     ∧ authorization req'
       = Some ("Bearer " ++ jwt_sign h (staff_claims h s))) →
  ∃ token,
    post_api_login req h = (Normal (login_ok (staff_claims h s) token), h)
    ∧ authMiddleware req' h = (Normal (Next (set_user req' decoded)), h)
    ∧ user_role (set_user req' decoded) h = (Normal (read h s "role"), h).
Proof.
  intros Hb He Hp Hstore Hxs Hpre Hs Hpw Hrt Hsub Hne Hsp Hreq.
  exists (jwt_sign h (staff_claims h s)). split_and!.
  - by eapply login_success_response.
  - apply authMiddleware_verified. unfold authenticated, or_else.
    assert (Ht : truthy (VStr (jwt_sign h (staff_claims h s))) = true).
    { simpl. apply negb_true_iff. by apply String.eqb_neq. }
    destruct Hreq as [Hc | [Hc Ha]].
    + unfold cookie_token. rewrite Hc. simpl in *. by rewrite Ht.
    + unfold cookie_token. rewrite Hc. simpl.
      rewrite (bearer_token_second_piece req' "Bearer" _ eq_refl Hsp Ha).
      by rewrite Ht.
  - unfold user_role. simpl.
    assert (Hrole : decoded !! "role" = Some (read h s "role")).
    { eapply lookup_weaken; [|exact Hsub]. unfold staff_claims.
      rewrite !lookup_insert_ne by done. by rewrite lookup_insert_eq. }
    by rewrite Hrole.
Qed.

(** ** Records that the handlers do not expect *)

Lemma delete_route_not_found req decoded (h : heap) xs :
  authenticated req decoded → role_of decoded = VStr "superAdmin" →
  record_store h loansData xs →
  Forall (λ loan, read h loan "id" ≠ param req "loanId") xs →
  delete_api_loans req h = (Normal (error_response 404 "Loan not found"), h).
Proof.
  intros Hauth Hrole Hstore Hnone. unfold delete_api_loans.
  rewrite (run_next _ _ _ _ _ _ (authMiddleware_verified _ _ h Hauth)).
  rewrite (run_next _ _ _ (set_user req decoded) h h).
  2:{ unfold authorizeRoles.
      rewrite (bind_normal _ _ _ _ _ (user_role_bound _ _ _)).
      rewrite Hrole. by rewrite bool_decide_eq_true_2 by constructor. }
  apply (run_error _ _ _ (new_Error "Loan not found" 404)).
  unfold delete_loan_handler.
  rewrite (try_catch_throw _ _ h (new_Error "Loan not found" 404) h);
    [done|].
  rewrite (bind_normal _ _ _ _ _ (loan_exists_spec _ _ _ Hstore)).
  rewrite find_none_Forall; [done|].
  eapply Forall_impl; [exact Hnone|]. intros x Hx. simpl.
  unfold strict_eq. by rewrite bool_decide_eq_false_2.
Qed.

(** X9: the existence check of the delete route compares the stored
    [id] with the path parameter by strict equality, and the parameter is
    a string: over a store whose loans carry no string [id] (numeric ids,
    say) every id is answered 404, the ids that are stored included. *)
Theorem delete_needs_string_ids req decoded (h : heap) xs id :
  authenticated req decoded → role_of decoded = VStr "superAdmin" →
  record_store h loansData xs →
  params req !! "loanId" = Some id →
  Forall (λ loan, ∀ s, read h loan "id" ≠ VStr s) xs →
  delete_api_loans req h = (Normal (error_response 404 "Loan not found"), h).
Proof.
  intros Hauth Hrole Hstore Hid Hnum.
  apply (delete_route_not_found req decoded h xs); try done.
  eapply Forall_impl; [exact Hnum|]. intros loan Hloan. simpl.
  unfold param. rewrite Hid. apply Hloan.
Qed.

Lemma filterM_throws {A} (p : A → js bool) (q : A → bool) pre x post
    (h : heap) e :
  Forall (λ y, p y h = (Normal (q y), h)) pre →
  p x h = (Throw e, h) →
  filterM p (pre ++ x :: post)%list h = (Throw e, h).
Proof.
  induction 1 as [|y pre Hy _ IH]; intros Hx; simpl.
  - by rewrite (bind_throw _ _ _ _ _ Hx).
  - rewrite (bind_normal _ _ _ _ _ Hy). by rewrite (bind_throw _ _ _ _ _ (IH Hx)).
Qed.

(** X10: one loan record without an [applicant] makes
    [GET /api/user-loans/:userEmail] fail for every parameter: the
    lookup throws on that record, the handler hands the error to the
    error handler and the answer is 500, also when other loans match, and
    no loan is returned. *)
Theorem user_loans_fails_on_loan_without_applicant req decoded (h : heap)
    xs pre x post o userEmail :
  authenticated req decoded →
  params req !! "userEmail" = Some userEmail →
  elems_of h loansData = Some xs →
  xs = (pre ++ x :: post)%list →
  Forall (λ loan, is_record h loan = true
                  ∧ ∃ s, read h (read h loan "applicant") "email" = VStr s)
    pre →
  fields h x = Some o → o !! "applicant" = None →
  get_api_user_loans req h
  = (Normal (error_response 500
       "Cannot read properties of undefined (reading 'email')"), h).
Proof.
  intros Hauth Hparam Hxs -> Hpre Hx Ho. unfold get_api_user_loans.
  rewrite (run_next _ _ _ _ _ _ (authMiddleware_verified _ _ h Hauth)).
  apply (run_error _ _ _ (cannot_read VUndef "email")).
  unfold user_loans_handler.
  rewrite (try_catch_throw _ _ h (cannot_read VUndef "email") h); [done|].
  assert (Hp : param (set_user req decoded) "userEmail" = VStr userEmail).
  { unfold param. simpl. by rewrite Hparam. }
  rewrite Hp. erewrite bind_throw; [done|]. unfold array_filter.
  rewrite (bind_normal _ _ _ _ _ (elements_of_array _ _ _ _ Hxs)).
  erewrite bind_throw; [done|].
  apply (filterM_throws _ (email_equals_ci h userEmail)).
  - eapply Forall_impl; [exact Hpre|]. intros y [Hy [s' Hs']]. simpl.
    by eapply email_matches_record.
  - unfold email_matches.
    rewrite (bind_normal _ _ _ _ _ (getProp_record _ _ _ _ Hx)).
    rewrite Ho. simpl. by rewrite (bind_throw _ _ h (cannot_read VUndef "email") h).
Qed.

Lemma mapM_throws {A B} (f : A → js B) pre x post (h : heap) e :
  (∀ y (h0 : heap), y ∈ pre → h ⊆ h0 →
     ∃ z h1, f y h0 = (Normal z, h1) ∧ h0 ⊆ h1) →
  (∀ h0 : heap, ∃ h1, f x h0 = (Throw e, h1) ∧ h0 ⊆ h1) →
  ∃ h', mapM f (pre ++ x :: post)%list h = (Throw e, h') ∧ h ⊆ h'.
Proof.
  intros Hpre Hx. assert (Hh : h ⊆ h) by done. revert Hh.
  generalize h at 2 3 4 as h0.
  induction pre as [|y pre IH]; intros h0 Hh; simpl.
  - destruct (Hx h0) as (h1 & E & Hsub).
    exists h1. split; [|done]. by rewrite (bind_throw _ _ _ _ _ E).
  - destruct (Hpre y h0) as (z & h1 & E & Hsub); [left | done |].
    destruct IH with (h0 := h1) as (h' & E' & Hsub').
    { intros y' h2 Hy'. apply Hpre. by right. }
    { by etrans. }
    exists h'. split; [| by etrans].
    rewrite (bind_normal _ _ _ _ _ E). by rewrite (bind_throw _ _ _ _ _ E').
Qed.

Lemma mapM_processLoan_other role xs (h : heap) :
  role ≠ VStr "staff" →
  ∃ ys h', mapM (processLoan role) xs h = (Normal ys, h')
           ∧ length ys = length xs.
Proof.
  intros Hrole. revert h. induction xs as [|x xs IH]; intros h.
  - by exists [], h.
  - destruct (IH (<[fresh (dom h) := Obj (ownProps h x)]> h))
      as (ys & h' & E & Hlen).
    exists (VRef (fresh (dom h)) :: ys), h'. split; [|by simpl; rewrite Hlen].
    simpl. rewrite (bind_normal _ _ _ _ _ (processLoan_other _ _ _ Hrole)).
    by rewrite (bind_normal _ _ _ _ _ E).
Qed.

Lemma processLoan_staff_nullish v (h : heap) :
  v = VNull ∨ v = VUndef →
  processLoan (VStr "staff") v h
  = (Throw (cannot_read v "applicant"), <[fresh (dom h) := Obj ∅]> h).
Proof. by intros [-> | ->]. Qed.

(** X11: a [null] (or [undefined]) element in the list makes the shaper
    throw for ['staff'], on reading [applicant], once the records before
    it have been copied; for every other role the shaper does not read
    the element and returns one record per element. *)
Theorem shaper_throws_on_null_for_staff_only loans (h : heap) pre v post :
  elems_of h loans = Some (pre ++ v :: post)%list →
  forallb (is_record h) pre = true →
  v = VNull ∨ v = VUndef →
  (∃ h', processLoansByRole loans (VStr "staff") h
         = (Throw (cannot_read v "applicant"), h') ∧ h ⊆ h')
  ∧ (∀ role, role ≠ VStr "staff" →
       ∃ out ys h',
         processLoansByRole loans role h = (Normal out, h')
         ∧ elems_of h' out = Some ys
         ∧ length ys = length (pre ++ v :: post)%list).
Proof.
  intros Hxs Hpre Hv. split.
  - destruct (mapM_throws (processLoan (VStr "staff")) pre v post h
                (cannot_read v "applicant")) as (h' & E & Hsub).
    + intros y h0 Hy Hsub0.
      apply forallb_Forall in Hpre. rewrite Forall_forall in Hpre.
      destruct (is_record_fields _ _ (Hpre _ Hy)) as (l & o & -> & Ho).
      destruct (processLoan_staff (VRef l) h0 o)
        as (l1 & l2 & a & h1 & E & Hsub1 & _).
      { simpl. by rewrite (lookup_weaken _ _ _ _ Ho Hsub0). }
      by exists (VRef l1), h1.
    + intros h0. exists (<[fresh (dom h0) := Obj ∅]> h0). split.
      * by apply processLoan_staff_nullish.
      * apply alloc_extends.
    + exists h'. split; [|done].
      unfold processLoansByRole, array_map.
      rewrite (bind_normal _ _ _ _ _ (elements_of_array _ _ _ _ Hxs)).
      by rewrite (bind_throw _ _ _ _ _ E).
  - intros role Hrole.
    destruct (mapM_processLoan_other role (pre ++ v :: post)%list h Hrole)
      as (ys & h1 & E & Hlen).
    destruct (alloc_array h1 ys) as (out & h2 & Eout & _ & Hel & _).
    exists out, ys, h2. split_and!; try done.
    unfold processLoansByRole, array_map.
    rewrite (bind_normal _ _ _ _ _ (elements_of_array _ _ _ _ Hxs)).
    by rewrite (bind_normal _ _ _ _ _ E).
Qed.

End App.

(** ** The theorems on the sample store *)

Lemma sample_loans :
  record_store Sample.store Sample.loansData [VRef 2; VRef 4].
Proof. split; vm_compute; reflexivity. Defined.

Lemma sample_staffs :
  record_store Sample.store Sample.staffsData [VRef 6; VRef 7].
Proof. split; vm_compute; reflexivity. Defined.

Lemma sample_staff_token :
  authenticated Sample.jwt_verify (Sample.bearer "staff-token")
    (Sample.claims "staff").
Proof. split; vm_compute; reflexivity. Defined.

Lemma sample_admin_token :
  authenticated Sample.jwt_verify (Sample.bearer "admin-token")
    (Sample.claims "admin").
Proof. split; vm_compute; reflexivity. Defined.

Lemma shaping_hides_totalLoan_witness :
  record_store Sample.store Sample.loansData [VRef 2; VRef 4]
  ∧ (∃ out ys h',
       processLoansByRole Sample.loansData (VStr "staff") Sample.store
       = (Normal out, h')
       ∧ elems_of h' out = Some ys
       ∧ Forall2 (hides_totalLoan Sample.store h') [VRef 2; VRef 4] ys)
  ∧ (∃ out ys h',
       processLoansByRole Sample.loansData (VStr "admin") Sample.store
       = (Normal out, h')
       ∧ elems_of h' out = Some ys
       ∧ Forall2 (shows_everything Sample.store h') [VRef 2; VRef 4] ys).
Proof.
  split; [exact sample_loans|].
  destruct (shaping_hides_totalLoan_from_staff_only Sample.loansData
              Sample.store [VRef 2; VRef 4] sample_loans)
    as [Hstaff Hother].
  split; [exact Hstaff|]. apply Hother. by left.
Defined.

Lemma expired_token_witness :
  truthy (or_else (cookie_token (Sample.bearer "expired-token"))
                  (bearer_token (Sample.bearer "expired-token"))) = true
  ∧ Sample.jwt_verify
      (or_else (cookie_token (Sample.bearer "expired-token"))
               (bearer_token (Sample.bearer "expired-token")))
    = Rejected TokenExpiredError
  ∧ get_api_loans Sample.jwt_verify Sample.loansData
      (Sample.bearer "expired-token") Sample.store
    = (Normal (error_response 500 "jwt expired"), Sample.store).
Proof.
  split_and!; [reflexivity | reflexivity |].
  apply (expired_token_yields_500 Sample.jwt_verify Sample.Date_value
           Sample.toLowerCase Sample.loansData 0);
    [unfold protected_routes; constructor | reflexivity | reflexivity].
Defined.

Lemma shaping_copies_one_level_witness :
  record_store Sample.store Sample.loansData [VRef 2; VRef 4]
  ∧ ∃ out ys h',
      processLoansByRole Sample.loansData (VStr "superAdmin") Sample.store
      = (Normal out, h')
      ∧ Sample.store ⊆ h'
      ∧ (∃ l, out = VRef l ∧ l ∉ dom Sample.store)
      ∧ elems_of h' out = Some ys
      ∧ Forall2 (shallow_copy Sample.store h') [VRef 2; VRef 4] ys.
Proof.
  split; [exact sample_loans|].
  apply (shaping_copies_one_level (VStr "superAdmin") Sample.loansData
           Sample.store [VRef 2; VRef 4]); [by right | exact sample_loans].
Defined.

Lemma delete_acknowledges_witness :
  authenticated Sample.jwt_verify
    (Sample.delete_request "super-token" "900199")
    (Sample.claims "superAdmin")
  ∧ read Sample.store (VRef 2) "id" = VStr "900199"
  ∧ delete_api_loans Sample.jwt_verify Sample.loansData
      (Sample.delete_request "super-token" "900199") Sample.store
    = (Normal {| status := 200;
                 json := SuccessJson "Loan with ID 900199 has been deleted";
                 cookie := None |}, Sample.store)
  ∧ ∃ out ys h',
      get_api_loans Sample.jwt_verify Sample.loansData
        (Sample.bearer "staff-token")
        (snd (delete_api_loans Sample.jwt_verify Sample.loansData
                (Sample.delete_request "super-token" "900199") Sample.store))
      = (Normal (loans_ok ys out), h')
      ∧ elems_of h' out = Some ys
      ∧ Forall2 (shaped (role_of (Sample.claims "staff")) Sample.store h')
          [VRef 2; VRef 4] ys
      ∧ ∃ y, y ∈ ys ∧ read h' y "id" = VStr "900199".
Proof.
  assert (Hauth : authenticated Sample.jwt_verify
            (Sample.delete_request "super-token" "900199")
            (Sample.claims "superAdmin")) by (split; vm_compute; reflexivity).
  assert (Hid : read Sample.store (VRef 2) "id" = VStr "900199")
    by (vm_compute; reflexivity).
  destruct (delete_acknowledges_without_removing Sample.jwt_verify
              Sample.loansData (Sample.delete_request "super-token" "900199")
              (Sample.claims "superAdmin") Sample.store [VRef 2; VRef 4]
              "900199" (VRef 2) Hauth eq_refl sample_loans eq_refl
              (list_elem_of_here _ _) Hid) as [Hdel Hget].
  split_and!; [exact Hauth | exact Hid | exact Hdel |].
  apply (Hget (Sample.bearer "staff-token") (Sample.claims "staff"));
    [exact sample_staff_token | reflexivity].
Defined.

Lemma delete_forbidden_or_not_found_witness :
  delete_api_loans Sample.jwt_verify Sample.loansData
    (Sample.delete_request "staff-token" "900199") Sample.store
  = (Normal (error_response 403 "Forbidden - Insufficient permissions"),
     Sample.store)
  ∧ delete_api_loans Sample.jwt_verify Sample.loansData
      (Sample.delete_request "admin-token" "900199") Sample.store
    = (Normal (error_response 403 "Forbidden - Insufficient permissions"),
       Sample.store)
  ∧ delete_api_loans Sample.jwt_verify Sample.loansData
      (Sample.delete_request "super-token" "123") Sample.store
    = (Normal (error_response 404 "Loan not found"), Sample.store).
Proof.
  split_and!.
  - apply (delete_forbidden_or_not_found Sample.jwt_verify Sample.loansData
             (Sample.delete_request "staff-token" "900199")
             (Sample.claims "staff") Sample.store);
      [split; vm_compute; reflexivity | by left].
  - apply (delete_forbidden_or_not_found Sample.jwt_verify Sample.loansData
             (Sample.delete_request "admin-token" "900199")
             (Sample.claims "admin") Sample.store);
      [split; vm_compute; reflexivity | by right].
  - apply (delete_forbidden_or_not_found Sample.jwt_verify Sample.loansData
             (Sample.delete_request "super-token" "123")
             (Sample.claims "superAdmin") Sample.store)
      with (xs := [VRef 2; VRef 4]);
      [split; vm_compute; reflexivity | reflexivity | exact sample_loans |].
    repeat constructor; vm_compute; discriminate.
Defined.

Lemma login_failures_witness :
  post_api_login Sample.jwt_sign Sample.staffsData
    (Sample.login_request (VStr "edwinjohn@example.com") VNull) Sample.store
  = (Normal (error_response 400 "Email and password are required"),
     Sample.store)
  ∧ post_api_login Sample.jwt_sign Sample.staffsData
      (Sample.login_request (VStr "nobody@example.com") (VStr "12345Pass"))
      Sample.store
    = (Normal (error_response 401 "Invalid credentials"), Sample.store)
  ∧ post_api_login Sample.jwt_sign Sample.staffsData
      (Sample.login_request (VStr "janesmith@example.com") (VStr "guess"))
      Sample.store
    = (Normal (error_response 401 "Invalid credentials"), Sample.store).
Proof.
  split_and!.
  - apply (login_failures Sample.jwt_sign Sample.staffsData
             (Sample.login_request (VStr "edwinjohn@example.com") VNull)
             _ Sample.store eq_refl).
    by right.
  - apply (login_failures Sample.jwt_sign Sample.staffsData
             (Sample.login_request (VStr "nobody@example.com")
                (VStr "12345Pass"))
             _ Sample.store eq_refl)
      with (xs := [VRef 6; VRef 7]);
      [reflexivity | reflexivity | exact sample_staffs |].
    repeat constructor; vm_compute; discriminate.
  - apply (login_failures Sample.jwt_sign Sample.staffsData
             (Sample.login_request (VStr "janesmith@example.com")
                (VStr "guess"))
             _ Sample.store eq_refl)
      with (xs := [VRef 6; VRef 7]) (pre := [VRef 6]) (s := VRef 7)
           (post := []);
      [reflexivity | reflexivity | exact sample_staffs | reflexivity
      | repeat constructor; vm_compute; discriminate
      | vm_compute; reflexivity
      | vm_compute; discriminate].
Defined.

Lemma expired_loans_exact_witness :
  authenticated Sample.jwt_verify (Sample.bearer "admin-token")
    (Sample.claims "admin")
  ∧ List.filter (matures_before Sample.Date_value Sample.store 1800000000000)
      [VRef 2; VRef 4] = [VRef 2]
  ∧ ∃ out ys h',
      get_api_expired_loans Sample.jwt_verify Sample.Date_value
        Sample.loansData 1800000000000 (Sample.bearer "admin-token")
        Sample.store
      = (Normal (loans_ok ys out), h')
      ∧ elems_of h' out = Some ys
      ∧ Forall2 (shaped (role_of (Sample.claims "admin")) Sample.store h')
          (List.filter
             (matures_before Sample.Date_value Sample.store 1800000000000)
             [VRef 2; VRef 4]) ys.
Proof.
  split_and!; [exact sample_admin_token | vm_compute; reflexivity |].
  destruct (expired_loans_exact Sample.jwt_verify Sample.Date_value
              Sample.loansData 1800000000000 (Sample.bearer "admin-token")
              (Sample.claims "admin") Sample.store [VRef 2; VRef 4]
              sample_admin_token sample_loans)
    as (arr & h1 & _ & _ & _ & Hres).
  exact Hres.
Defined.



Lemma auth_gate_token_precedence_witness :
  truthy (cookie_token (Sample.request_with None None None ∅ None)) = false
  ∧ truthy (bearer_token (Sample.request_with None None None ∅ None)) = false
  ∧ get_api_loans Sample.jwt_verify Sample.loansData
      (Sample.request_with None None None ∅ None) Sample.store
    = (Normal (error_response 401 "Unauthorized - No token provided"),
       Sample.store).
Proof.
  split_and!; [reflexivity | reflexivity |].
  apply (proj2 (auth_gate_token_precedence Sample.jwt_verify
                  Sample.Date_value Sample.toLowerCase Sample.loansData
                  (Sample.request_with None None None ∅ None) Sample.store)
           0%Z);
    [unfold protected_routes; constructor | reflexivity | reflexivity].
Defined.

Lemma falsy_status_is_no_filter_witness :
  authenticated Sample.jwt_verify
    (Sample.request_with None (Some "Bearer admin-token") (Some (VStr ""))
       ∅ None)
    (Sample.claims "admin")
  ∧ truthy (VStr "") = false
  ∧ List.filter
      (λ loan, strict_eq (read Sample.store loan "status") (VStr ""))
      [VRef 2; VRef 4] = []
  ∧ ∃ out ys h',
      get_api_loans Sample.jwt_verify Sample.loansData
        (Sample.request_with None (Some "Bearer admin-token")
           (Some (VStr "")) ∅ None) Sample.store
      = (Normal (loans_ok ys out), h')
      ∧ elems_of h' out = Some ys
      ∧ Forall2 (shaped (role_of (Sample.claims "admin")) Sample.store h')
          [VRef 2; VRef 4] ys.
Proof.
  assert (Hauth : authenticated Sample.jwt_verify
            (Sample.request_with None (Some "Bearer admin-token")
               (Some (VStr "")) ∅ None)
            (Sample.claims "admin")) by (split; vm_compute; reflexivity).
  split_and!; [exact Hauth | reflexivity | vm_compute; reflexivity |].
  apply (falsy_status_is_no_filter Sample.jwt_verify Sample.loansData _
           (Sample.claims "admin") Sample.store [VRef 2; VRef 4] (VStr "")
           Hauth sample_loans eq_refl eq_refl).
Defined.

(** ** Inputs on which the stated claims fail *)

(** C3 as stated fails: shaping for ['admin'] returns a record whose
    [applicant] is the object at location 1 of the store, so that object
    is reachable both from the response and from the store, and a write
    through the response is seen through the store. *)
Lemma shaping_shares_applicant_counterexample :
  ∃ out h' h'',
    processLoansByRole Sample.loansData (VStr "admin") Sample.store
    = (Normal out, h')
    ∧ reachable h' out 1%positive
    ∧ reachable Sample.store Sample.loansData 1%positive
    ∧ read Sample.store (read Sample.store (VRef 2) "applicant") "totalLoan"
      = VNum 5000
    ∧ (let! loans0 := getProp out "0" in
       let! applicant := getProp loans0 "applicant" in
       setProp applicant "totalLoan" (VNum 0)) h' = (Normal (), h'')
    ∧ read h'' (read h'' (VRef 2) "applicant") "totalLoan" = VNum 0.
Proof.
  eexists _, _, _. split_and!.
  - vm_compute. reflexivity.
  - eapply reach_elem; [vm_compute; reflexivity | left |].
    eapply (reach_prop _ _ _ "applicant"); [vm_compute; reflexivity | vm_compute; reflexivity |].
    apply reach_here.
  - eapply reach_elem; [vm_compute; reflexivity | left |].
    eapply (reach_prop _ _ _ "applicant"); [vm_compute; reflexivity | vm_compute; reflexivity |].
    apply reach_here.
  - vm_compute. reflexivity.
  - vm_compute. reflexivity.
  - vm_compute. reflexivity.
Qed.

(** C6 as stated fails: the body carries an [email], the empty string,
    that matches no staff record, and a password; the answer is 400, not
    401. *)
Lemma login_empty_email_counterexample :
  body (Sample.login_request (VStr "") (VStr "12345Pass"))
  = Some (<["email" := VStr ""]> (<["password" := VStr "12345Pass"]> ∅))
  ∧ Forall (λ s, read Sample.store s "email" ≠ VStr "") [VRef 6; VRef 7]
  ∧ post_api_login Sample.jwt_sign Sample.staffsData
      (Sample.login_request (VStr "") (VStr "12345Pass")) Sample.store
    = (Normal (error_response 400 "Email and password are required"),
       Sample.store).
Proof.
  split_and!; [reflexivity | | vm_compute; reflexivity].
  repeat constructor; vm_compute; discriminate.
Qed.

(** C9 as stated fails: the cookie [token] is present, with the empty
    string as its value, and the gate still takes the token of the
    [Authorization] header and lets the request through. *)
Lemma empty_cookie_falls_back_counterexample :
  cookies (Sample.request_with (Some (VStr "")) (Some "Bearer admin-token")
             None ∅ None) !! "token" = Some (VStr "")
  ∧ authMiddleware Sample.jwt_verify
      (Sample.request_with (Some (VStr "")) (Some "Bearer admin-token")
         None ∅ None) Sample.store
    = (Normal (Next (set_user
         (Sample.request_with (Some (VStr "")) (Some "Bearer admin-token")
            None ∅ None)
         (Sample.claims "admin"))), Sample.store).
Proof. split; vm_compute; reflexivity. Qed.

(** ** The further properties on the sample stores *)

Lemma sample_session_body :
  body (Sample.login_request (VStr "janesmith@example.com")
          (VStr "password456"))
  = Some (<["email" := VStr "janesmith@example.com"]>
            (<["password" := VStr "password456"]> ∅)).
Proof. reflexivity. Defined.

Lemma routes_never_mutate_the_store_witness :
  snd (delete_api_loans Sample.jwt_verify Sample.loansData
         (Sample.delete_request "super-token" "900199") Sample.store)
  = Sample.store
  ∧ Sample.store
    ⊆ snd (get_api_loans Sample.jwt_verify Sample.loansData
             (Sample.bearer "staff-token") Sample.store).
Proof.
  destruct (routes_never_mutate_the_store Sample.jwt_verify Sample.jwt_sign
              Sample.Date_value Sample.toLowerCase Sample.staffsData
              Sample.loansData 0
              (Sample.delete_request "super-token" "900199") Sample.store)
    as [Hplain _].
  destruct (routes_never_mutate_the_store Sample.jwt_verify Sample.jwt_sign
              Sample.Date_value Sample.toLowerCase Sample.staffsData
              Sample.loansData 0
              (Sample.bearer "staff-token") Sample.store)
    as [_ Hread].
  split.
  - apply Hplain. unfold plain_routes. do 2 right. left.
  - apply Hread. unfold read_routes. left.
Defined.

Lemma no_answer_without_verified_token_witness :
  ∃ decoded,
    authenticated Sample.jwt_verify (Sample.bearer "staff-token") decoded.
Proof.
  eapply (no_answer_without_verified_token Sample.jwt_verify
            Sample.Date_value Sample.toLowerCase Sample.loansData 0
            (get_api_loans Sample.jwt_verify Sample.loansData)
            (Sample.bearer "staff-token") Sample.store).
  - unfold protected_routes. left.
  - vm_compute. reflexivity.
  - intros code msg. vm_compute. discriminate.
Defined.

Lemma delete_succeeds_only_for_superAdmin_witness :
  ∃ decoded,
    authenticated Sample.jwt_verify
      (Sample.delete_request "super-token" "900199") decoded
    ∧ role_of decoded = VStr "superAdmin".
Proof.
  eapply (delete_succeeds_only_for_superAdmin Sample.jwt_verify
            Sample.loansData (Sample.delete_request "super-token" "900199")
            Sample.store).
  - vm_compute. reflexivity.
  - vm_compute. reflexivity.
Defined.

Lemma status_filter_is_exact_witness :
  authenticated Sample.jwt_verify
    (Sample.request_with None (Some "Bearer admin-token")
       (Some (VStr "pending")) ∅ None)
    (Sample.claims "admin")
  ∧ List.filter
      (λ loan, strict_eq (read Sample.store loan "status") (VStr "pending"))
      [VRef 2; VRef 4] = [VRef 4]
  ∧ ∃ out ys h',
      get_api_loans Sample.jwt_verify Sample.loansData
        (Sample.request_with None (Some "Bearer admin-token")
           (Some (VStr "pending")) ∅ None) Sample.store
      = (Normal (loans_ok ys out), h')
      ∧ elems_of h' out = Some ys
      ∧ Forall2 (shaped (role_of (Sample.claims "admin")) Sample.store h')
          (List.filter
             (λ loan,
                strict_eq (read Sample.store loan "status") (VStr "pending"))
             [VRef 2; VRef 4]) ys.
Proof.
  assert (Hauth : authenticated Sample.jwt_verify
            (Sample.request_with None (Some "Bearer admin-token")
               (Some (VStr "pending")) ∅ None)
            (Sample.claims "admin")) by (split; vm_compute; reflexivity).
  split_and!; [exact Hauth | vm_compute; reflexivity |].
  destruct (status_filter_is_exact Sample.jwt_verify Sample.loansData _
              (Sample.claims "admin") Sample.store [VRef 2; VRef 4]
              (VStr "pending") Hauth sample_loans eq_refl eq_refl)
    as (out & ys & h' & E & Hel & Hsh & _).
  by exists out, ys, h'.
Defined.

Lemma every_other_role_sees_totalLoan_witness :
  ∃ out ys h',
    processLoansByRole Sample.loansData VUndef Sample.store
    = (Normal out, h')
    ∧ elems_of h' out = Some ys
    ∧ Forall2 (shows_everything Sample.store h') [VRef 2; VRef 4] ys.
Proof.
  apply (every_other_role_sees_totalLoan VUndef Sample.loansData
           Sample.store [VRef 2; VRef 4]); [discriminate | exact sample_loans].
Defined.

Lemma login_success_witness :
  post_api_login Session.jwt_sign Sample.staffsData
    (Sample.login_request (VStr "janesmith@example.com")
       (VStr "password456")) Sample.store
  = (Normal (login_ok (staff_claims Sample.store (VRef 7)) "session-token"),
     Sample.store)
  ∧ dom (staff_claims Sample.store (VRef 7))
    = {["id"; "name"; "email"; "role"]}
  ∧ role_of (staff_claims Sample.store (VRef 7))
    = read Sample.store (VRef 7) "role".
Proof.
  apply (login_success Session.jwt_sign Sample.staffsData _ _ Sample.store
           [VRef 6; VRef 7] [VRef 6] (VRef 7) [] sample_session_body);
    [ reflexivity | reflexivity | exact sample_staffs | reflexivity
    | repeat constructor; vm_compute; discriminate
    | vm_compute; reflexivity
    | vm_compute; reflexivity ].
Defined.

Lemma bearer_token_ignores_scheme_witness :
  bearer_token (Sample.request_with None (Some "Basic admin-token") None ∅
                  None)
  = VStr "admin-token"
  ∧ bearer_token (Sample.request_with None (Some "Bearer") None ∅ None)
    = VUndef.
Proof.
  split.
  - apply (bearer_token_ignores_scheme _ "Basic" "admin-token" eq_refl
             eq_refl). reflexivity.
  - apply (bearer_token_ignores_scheme _ "Bearer" "x" eq_refl eq_refl).
    reflexivity.
Defined.

Lemma sample_session_claims :
  staff_claims Sample.store (VRef 7)
  ⊆ <["iat" := VNum 1762142400]>
      (<["exp" := VNum 1762146000]> (staff_claims Sample.store (VRef 7))).
Proof.
  etrans; [|apply insert_subseteq; vm_compute; reflexivity].
  apply insert_subseteq. vm_compute. reflexivity.
Defined.

Lemma login_token_opens_the_gate_witness :
  ∃ token,
    post_api_login Session.jwt_sign Sample.staffsData
      (Sample.login_request (VStr "janesmith@example.com")
         (VStr "password456")) Sample.store
    = (Normal (login_ok (staff_claims Sample.store (VRef 7)) token),
       Sample.store)
    ∧ authMiddleware Session.jwt_verify
        (Sample.request_with (Some (VStr "session-token")) None None ∅ None)
        Sample.store
      = (Normal (Next (set_user
           (Sample.request_with (Some (VStr "session-token")) None None ∅
              None)
           (<["iat" := VNum 1762142400]>
              (<["exp" := VNum 1762146000]>
                 (staff_claims Sample.store (VRef 7)))))), Sample.store)
    ∧ user_role
        (set_user
           (Sample.request_with (Some (VStr "session-token")) None None ∅
              None)
           (<["iat" := VNum 1762142400]>
              (<["exp" := VNum 1762146000]>
                 (staff_claims Sample.store (VRef 7))))) Sample.store
      = (Normal (read Sample.store (VRef 7) "role"), Sample.store).
Proof.
  apply (login_token_opens_the_gate Session.jwt_verify Session.jwt_sign
           Sample.staffsData _ _ Sample.store
           [VRef 6; VRef 7] [VRef 6] (VRef 7) []
           (Sample.request_with (Some (VStr "session-token")) None None ∅
              None)
           (<["iat" := VNum 1762142400]>
              (<["exp" := VNum 1762146000]>
                 (staff_claims Sample.store (VRef 7))))
           sample_session_body);
    [ reflexivity | reflexivity | exact sample_staffs | reflexivity
    | repeat constructor; vm_compute; discriminate
    | vm_compute; reflexivity
    | vm_compute; reflexivity
    | reflexivity
    | exact sample_session_claims
    | discriminate
    | reflexivity
    | left; reflexivity ].
Defined.

Lemma delete_needs_string_ids_witness :
  read Edge.numeric_ids (VRef 1) "id" = VNum 900199
  ∧ delete_api_loans Sample.jwt_verify Edge.numeric_loansData
      (Sample.delete_request "super-token" "900199") Edge.numeric_ids
    = (Normal (error_response 404 "Loan not found"), Edge.numeric_ids).
Proof.
  split; [vm_compute; reflexivity|].
  apply (delete_needs_string_ids Sample.jwt_verify Edge.numeric_loansData
           (Sample.delete_request "super-token" "900199")
           (Sample.claims "superAdmin") Edge.numeric_ids [VRef 1] "900199");
    [ split; vm_compute; reflexivity | reflexivity
    | split; vm_compute; reflexivity | reflexivity |].
  repeat constructor. intros s. vm_compute. discriminate.
Defined.

Lemma user_loans_fails_on_loan_without_applicant_witness :
  get_api_user_loans Sample.jwt_verify Sample.toLowerCase Edge.no_applicant_loansData
    (Sample.user_loans_request "admin-token" "janedoe@example.com")
    Edge.no_applicant
  = (Normal (error_response 500
       "Cannot read properties of undefined (reading 'email')"),
     Edge.no_applicant).
Proof.
  apply (user_loans_fails_on_loan_without_applicant Sample.jwt_verify
           Sample.toLowerCase Edge.no_applicant_loansData
           (Sample.user_loans_request "admin-token" "janedoe@example.com")
           (Sample.claims "admin") Edge.no_applicant
           [VRef 2; VRef 9; VRef 4] [VRef 2] (VRef 9) [VRef 4]
           (<["id" := VStr "900201"]> (<["status" := VStr "active"]> ∅))
           "janedoe@example.com");
    [ split; vm_compute; reflexivity | reflexivity
    | vm_compute; reflexivity | reflexivity
    | | vm_compute; reflexivity | vm_compute; reflexivity ].
  apply Forall_cons_2; [|apply Forall_nil_2].
  split; [vm_compute; reflexivity|].
  exists "MichaelBrown@example.com". vm_compute. reflexivity.
Defined.

Lemma shaper_throws_on_null_for_staff_only_witness :
  (∃ h', processLoansByRole Edge.with_null_loansData (VStr "staff")
           Edge.with_null
         = (Throw (cannot_read VNull "applicant"), h')
         ∧ Edge.with_null ⊆ h')
  ∧ ∃ out ys h',
      processLoansByRole Edge.with_null_loansData (VStr "admin")
        Edge.with_null
      = (Normal out, h')
      ∧ elems_of h' out = Some ys
      ∧ length ys = 3%nat.
Proof.
  destruct (shaper_throws_on_null_for_staff_only Edge.with_null_loansData
              Edge.with_null [VRef 2] VNull [VRef 4])
    as [Hstaff Hother];
    [vm_compute; reflexivity | vm_compute; reflexivity | by left |].
  split; [exact Hstaff|]. apply Hother. discriminate.
Defined.
